(** * Igloo: a fluent wrapper over a WebGL rendering context

    A shallow embedding of the wrapper classes [Framebuffer], [Buffer],
    [Program] and [Igloo] and of the properties their specification states.

    The rendering context is external to the wrapper.  It is modelled as a
    mock: every call the wrapper makes on it is appended to a call log,
    and the value a call returns is given by a [Driver], a table of answer
    functions that may depend on the whole log so far.  Theorems quantify
    over every driver, so they hold for every deterministic context. *)

From stdpp Require Import gmap strings list.
From Stdlib Require Import ZArith DecimalString Ascii.
From Stdlib Require DecimalPos DecimalZ.

Local Open Scope Z_scope.

(** ** JavaScript values handled by the wrapper *)

(** Numbers the wrapper only compares, adds to an enumerant or hands on are
    carried as integers. *)
Definition number : Type := Z.

(** A number the wrapper tests for truthiness and prints into the name of
    an entry point, the [dim] of [Program.uniform], is carried in full: an
    integer (zero stands for both zeros), a finite number that is no
    integer, of which only the integer part is kept, an infinity, or
    [NaN]. *)
Inductive JSNumber : Type :=
| Integer (n : Z)
| Fraction (floor : Z)
| Infinity (negative : bool)
| NaN.

Inductive TypedArrayKind : Type :=
| Float32 | Float64 | Int8 | Int16 | Int32
| Uint8 | Uint16 | Uint32 | Uint8Clamped
| BigInt64 | BigUint64.

Inductive Value : Type :=
| VUndefined
| VNull
| VBoolean (b : bool)
| VNumber (n : number)
| VString (s : string)
| VArray (xs : list number)
| VTyped (k : TypedArrayKind) (xs : list number)
| VObject (tag : string).

Definition kind_name (k : TypedArrayKind) : string :=
  match k with
  | Float32 => "Float32" | Float64 => "Float64"
  | Int8 => "Int8" | Int16 => "Int16" | Int32 => "Int32"
  | Uint8 => "Uint8" | Uint16 => "Uint16" | Uint32 => "Uint32"
  | Uint8Clamped => "Uint8Clamped"
  | BigInt64 => "BigInt64" | BigUint64 => "BigUint64"
  end.

Definition BYTES_PER_ELEMENT (k : TypedArrayKind) : Z :=
  match k with
  | Int8 | Uint8 | Uint8Clamped => 1
  | Int16 | Uint16 => 2
  | Float32 | Int32 | Uint32 => 4
  | Float64 | BigInt64 | BigUint64 => 8
  end.

(** [Object.prototype.toString.apply(object, [])].  A [VObject] is any
    other object, given by the class name this conversion reports for it:
    its [Symbol.toStringTag] when it has one, else [Function], [Date],
    [Object] and so on. *)
Definition Object_toString (v : Value) : string :=
  "[object " +:+
  match v with
  | VUndefined => "Undefined"
  | VNull => "Null"
  | VBoolean _ => "Boolean"
  | VNumber _ => "Number"
  | VString _ => "String"
  | VArray _ => "Array"
  | VTyped k _ => kind_name k +:+ "Array"
  | VObject tag => tag
  end +:+ "]".

(** Decimal rendering of an integer number, as string concatenation does. *)
Definition number_to_string (n : number) : string :=
  NilZero.string_of_int (Z.to_int n).

Definition bool_to_string (b : bool) : string :=
  if b then "true" else "false".

Fixpoint join_numbers (xs : list number) : string :=
  match xs with
  | [] => ""
  | [x] => number_to_string x
  | x :: rest => number_to_string x +:+ "," +:+ join_numbers rest
  end.

(** [String(value)], the conversion applied by ["..." + value]; an object
    is taken to print itself as [Object.prototype.toString] does. *)
Definition ToString (v : Value) : string :=
  match v with
  | VUndefined => "undefined"
  | VNull => "null"
  | VBoolean b => bool_to_string b
  | VNumber n => number_to_string n
  | VString s => s
  | VArray xs | VTyped _ xs => join_numbers xs
  | VObject _ => Object_toString v
  end.

(** Truthiness of optional arguments ([undefined] is [None]). *)
Definition truthy_bool (b : option bool) : bool :=
  match b with Some true => true | _ => false end.

(** A number is falsy when it is zero or [NaN]. *)
Definition truthy_number (n : option JSNumber) : bool :=
  match n with
  | Some (Integer n) => negb (n =? 0)%Z
  | Some (Fraction _) | Some (Infinity _) => true
  | Some NaN | None => false
  end.

(** [log || fallback] on a string that may be [null]. *)
Definition or_default (s : option string) (fallback : string) : string :=
  match s with
  | Some s => if String.eqb s "" then fallback else s
  | None => fallback
  end.

(** [name] ends with [suffix]: a regular expression anchored by [$]. *)
Definition ends_with (suffix name : string) : bool :=
  let n := String.length name in
  let m := String.length suffix in
  (m <=? n)%nat && String.eqb (String.substring (n - m) m name) suffix.

(** The alternatives of [(Float(32|64)|Int(16|32|8)|Uint(16|32|8(Clamped)?))?]. *)
Definition array_prefixes : list string :=
  [ ""; "Float32"; "Float64"; "Int16"; "Int32"; "Int8";
    "Uint16"; "Uint32"; "Uint8"; "Uint8Clamped" ].

(** [Igloo.isArray]: the class name matches
    [/ (Float(32|64)|Int(16|32|8)|Uint(16|32|8(Clamped)?))?Array]$/]. *)
Definition isArray (object : Value) : bool :=
  let name := Object_toString object in
  existsb (λ alt, ends_with (" " +:+ alt +:+ "Array]") name) array_prefixes.

(** [value.length]: arrays have a length; the other values that can reach
    the read, objects that [Igloo.isArray] takes for arrays by their class
    name, are taken to have none ([None] is [undefined]). *)
Definition Value_length (v : Value) : option JSNumber :=
  match v with
  | VArray xs | VTyped _ xs => Some (Integer (Z.of_nat (length xs)))
  | _ => None
  end.

(** A number, or [undefined], printed into a string.  The digits of a
    fraction are not computed, [.?] stands for them: no member of the
    context has a point in its name. *)
Definition JSNumber_to_string (x : option JSNumber) : string :=
  match x with
  | Some (Integer n) => number_to_string n
  | Some (Fraction f) => number_to_string f +:+ ".?"
  | Some (Infinity negative) => if negative then "-Infinity" else "Infinity"
  | Some NaN => "NaN"
  | None => "undefined"
  end.

(** [Math.sqrt] of a length.  A perfect square has its root, exactly; any
    other length has a root that is no integer, of which only the integer
    part is kept. *)
Inductive Root : Type :=
| Whole (r : Z)
| Fractional (floor : Z).

Definition Math_sqrt (n : Z) : Root :=
  let r := Z.sqrt n in
  if (r * r =? n)%Z then Whole r else Fractional r.

(** The printed root.  The digits after the point are not computed, [?]
    stands for them: no member of the context has a point in its name. *)
Definition Root_to_string (x : Root) : string :=
  match x with
  | Whole r => number_to_string r
  | Fractional f => number_to_string f +:+ ".?"
  end.

(** An argument of a call site: left out, [undefined], or a value. *)
Inductive Arg (A : Type) : Type :=
| Omitted
| PassedUndefined
| Passed (a : A).
Arguments Omitted {A}.
Arguments PassedUndefined {A}.
Arguments Passed {A} a.

(** ** Handles and binary payloads *)

Definition WebGLTexture : Type := N.
Definition WebGLFramebuffer : Type := N.
Definition WebGLRenderbuffer : Type := N.
Definition WebGLBuffer : Type := N.
Definition WebGLProgram : Type := N.
Definition WebGLShader : Type := N.
Definition WebGLUniformLocation : Type := N.
Definition Context : Type := N.
Definition Canvas : Type := N.

(** A [BufferSource]: a typed-array view or a raw [ArrayBuffer]. *)
Inductive BufferSource : Type :=
| View (k : TypedArrayKind) (xs : list number)
| ArrayBuffer (bytes : list Z).

Definition byteLength (data : BufferSource) : Z :=
  match data with
  | View k xs => BYTES_PER_ELEMENT k * Z.of_nat (length xs)
  | ArrayBuffer bytes => Z.of_nat (length bytes)
  end.

(** What callers may hand to [Buffer.update]: a plain array or binary data. *)
Inductive Payload : Type :=
| PlainArray (xs : list number)
| Binary (data : BufferSource).

(** ** Enumerants supplied by the context (WebGL constants) *)

Definition ARRAY_BUFFER : Z := 34962.
Definition ELEMENT_ARRAY_BUFFER : Z := 34963.
Definition STATIC_DRAW : Z := 35044.
Definition DYNAMIC_DRAW : Z := 35048.
Definition FLOAT : Z := 5126.
Definition TEXTURE_2D : Z := 3553.
Definition COLOR_ATTACHMENT0 : Z := 36064.
Definition FRAMEBUFFER : Z := 36160.
Definition RENDERBUFFER : Z := 36161.
Definition DEPTH_COMPONENT16 : Z := 33189.
Definition DEPTH_ATTACHMENT : Z := 36096.
Definition FRAGMENT_SHADER : Z := 35632.
Definition VERTEX_SHADER : Z := 35633.
Definition COMPILE_STATUS : Z := 35713.
Definition LINK_STATUS : Z := 35714.

(** ** The name-to-location table of a [Program] *)

(** A stored location is a [WebGLUniformLocation] object or the number that
    [getAttribLocation] returned; [typeof] tells them apart. *)
Inductive Location : Type :=
| UniformLoc (loc : WebGLUniformLocation)
| AttribLoc (index : number).

(** The table is a plain object literal [{}], so reading [vars[name]] falls
    back to the members every object inherits from [Object.prototype]. *)
Definition Object_prototype_members : list string :=
  [ "constructor"; "hasOwnProperty"; "isPrototypeOf"; "propertyIsEnumerable";
    "toLocaleString"; "toString"; "valueOf"; "__proto__";
    "__defineGetter__"; "__defineSetter__";
    "__lookupGetter__"; "__lookupSetter__" ].

(** The value of the expression [this.vars[name]]. *)
Inductive Slot : Type :=
| Own (l : Location)
| Inherited (member : string)
| Absent.

Definition vars_get (vars : gmap string Location) (name : string) : Slot :=
  match vars !! name with
  | Some l => Own l
  | None =>
      if bool_decide (name ∈ Object_prototype_members)
      then Inherited name else Absent
  end.

(** [slot == null]. *)
Definition is_nullish (s : Slot) : bool :=
  match s with Absent => true | _ => false end.

Definition hasOwnProperty (vars : gmap string Location) (name : string) : bool :=
  bool_decide (is_Some (vars !! name)).

(** The keys a [for ... in] loop visits: the own keys, no member of
    [Object.prototype] being enumerable.  The order of the visit is not
    modelled; statements about it are up to that order. *)
Definition for_in_keys (vars : gmap string Location) : list string :=
  (map_to_list vars).*1.

(** ** Calls on the context, with the value each one returned *)

Inductive ContextReply : Type :=
| Raises
| Returns (ctx : option Context).

Inductive GLCall : Type :=
| createFramebuffer (ret : option WebGLFramebuffer)
| bindFramebuffer (target : Z) (fb : option WebGLFramebuffer)
| framebufferTexture2D (target attachment textarget : Z)
    (texture : option WebGLTexture) (level : number)
| createRenderbuffer (ret : option WebGLRenderbuffer)
| renderbufferStorage (target internalformat : Z) (width height : number)
| framebufferRenderbuffer (target attachment rbtarget : Z)
    (rb : option WebGLRenderbuffer)
| createBuffer (ret : option WebGLBuffer)
| bindBuffer (target : Z) (buf : option WebGLBuffer)
| bufferData (target : Z) (data : BufferSource) (usage : Z)
| bufferSubData (target : Z) (offset : Z) (data : BufferSource)
| createProgram (ret : option WebGLProgram)
| createShader (type : Z) (ret : option WebGLShader)
| shaderSource (sh : WebGLShader) (source : string)
| compileShader (sh : WebGLShader)
| getShaderParameter (sh : WebGLShader) (pname : Z) (ret : bool)
| getShaderInfoLog (sh : WebGLShader) (ret : option string)
| attachShader (p : WebGLProgram) (sh : WebGLShader)
| linkProgram (p : WebGLProgram)
| getProgramParameter (p : WebGLProgram) (pname : Z) (ret : bool)
| getProgramInfoLog (p : WebGLProgram) (ret : option string)
| getUniformLocation (p : WebGLProgram) (name : string)
    (ret : option WebGLUniformLocation)
| getAttribLocation (p : WebGLProgram) (name : string) (ret : number)
| uniform1i (loc : Slot) (value : Value)
| uniform1f (loc : Slot) (value : Value)
| uniform_vector (method : string) (loc : Slot) (value : Value)
| uniform_matrix (method : string) (loc : Slot) (transpose : bool)
    (value : list number)
| enableVertexAttribArray (index : Slot)
| vertexAttribPointer (index : Slot) (size : number) (type : Z)
    (normalized : bool) (stride offset : number)
| disableVertexAttribArray (index : number)
| canvas_getContext (canvas : Canvas) (contextId : string)
    (attributes : gmap string Value) (reply : ContextReply).

Definition History : Type := list GLCall.

(** The answers of the context.  Each answer may depend on every call made
    before it. *)
Record Driver : Type := {
  on_createFramebuffer : History → option WebGLFramebuffer;
  on_createRenderbuffer : History → option WebGLRenderbuffer;
  on_createBuffer : History → option WebGLBuffer;
  on_createProgram : History → option WebGLProgram;
  on_createShader : History → Z → option WebGLShader;
  on_getShaderParameter : History → WebGLShader → Z → bool;
  on_getShaderInfoLog : History → WebGLShader → option string;
  on_getProgramParameter : History → WebGLProgram → Z → bool;
  on_getProgramInfoLog : History → WebGLProgram → option string;
  on_getUniformLocation :
    History → WebGLProgram → string → option WebGLUniformLocation;
  on_getAttribLocation : History → WebGLProgram → string → number;
  on_getContext :
    History → Canvas → string → gmap string Value → ContextReply;
  canvas_of : Context → Canvas
}.

(** ** Exceptions and the method monad *)

Inductive Exn : Type :=
| Error (message : string)
| TypeError.

Inductive Result (A : Type) : Type :=
| Ok (a : A)
| Throw (e : Exn).
Arguments Ok {A} a.
Arguments Throw {A} e.

(** A computation run with [this] of type [T]: it reads the driver, updates
    [this] and the call log, and returns or throws.  Updates made before a
    throw persist, as they do on a JavaScript object. *)
Definition M (T A : Type) : Type :=
  Driver → T * History → Result A * (T * History).

Definition ret {T A} (a : A) : M T A := λ _ s, (Ok a, s).

Definition throw {T A} (e : Exn) : M T A := λ _ s, (Throw e, s).

Definition bind {T A B} (m : M T A) (k : A → M T B) : M T B :=
  λ d s,
    match m d s with
    | (Ok a, s') => k a d s'
    | (Throw e, s') => (Throw e, s')
    end.

Notation "'let*' x := m 'in' k" := (bind m (λ x, k))
  (at level 10, x name, m at level 99, k at level 200).
Notation "m ;;; k" := (bind m (λ _, k))
  (at level 100, k at level 200, right associativity).

Definition get_this {T} : M T T := λ _ s, (Ok s.1, s).

Definition set_this {T} (t : T) : M T unit := λ _ s, (Ok tt, (t, s.2)).

(** A call that returns a value: ask the driver, log call and answer. *)
Definition gl_ask {T R} (answer : Driver → History → R) (call : R → GLCall)
  : M T R :=
  λ d s, let r := answer d s.2 in (Ok r, (s.1, s.2 ++ [call r])).

(** A call for effect only. *)
Definition gl_do {T} (call : GLCall) : M T unit :=
  λ _ s, (Ok tt, (s.1, s.2 ++ [call])).

(** [new C(...)] evaluated inside another computation. *)
Definition construct {T A} (c : M unit A) : M T A :=
  λ d s, let '(r, (_, h)) := c d (tt, s.2) in (r, (s.1, h)).

Fixpoint for_each {T A} (xs : list A) (body : A → M T unit) : M T unit :=
  match xs with
  | [] => ret tt
  | x :: rest => body x ;;; for_each rest body
  end.

(** ** Buffer *)

Module Buffer.

Record t : Type := mk {
  buffer : option WebGLBuffer;
  target : Z;
  size : Z
}.

Definition new (target : option Z) : M unit t :=
  let* buffer := gl_ask on_createBuffer createBuffer in
  ret {| buffer := buffer;
         target := match target with None => ARRAY_BUFFER | Some t => t end;
         size := -1 |}.

Definition bind_ {T} (this : t) : M T unit :=
  gl_do (bindBuffer (target this) (buffer this)).

(** [data instanceof Array ? new Float32Array(data) : data]. *)
Definition to_source (data : Payload) : BufferSource :=
  match data with
  | PlainArray xs => View Float32 xs
  | Binary d => d
  end.

Definition update (data : Payload) (usage : option Z) : M t unit :=
  let data := to_source data in
  let usage := match usage with None => DYNAMIC_DRAW | Some u => u end in
  let* this := get_this in
  bind_ this ;;;
  if negb (size this =? byteLength data)%Z then
    gl_do (bufferData (target this) data usage) ;;;
    set_this {| buffer := buffer this; target := target this;
                size := byteLength data |}
  else
    gl_do (bufferSubData (target this) 0 data).

End Buffer.

(** ** Texture (the handle is all the other classes read) *)

Record Texture : Type := { texture_handle : option WebGLTexture }.

(** ** Framebuffer *)

Module Framebuffer.

Record t : Type := mk {
  framebuffer : option WebGLFramebuffer;
  renderbuffer : option WebGLRenderbuffer
}.

(** [arguments.length] of [new Framebuffer(gl, framebuffer)]: [gl] is
    always there. *)
Definition arguments_length {A} (framebuffer : Arg A) : Z :=
  match framebuffer with Omitted => 1 | _ => 2 end.

(** The parameter [framebuffer = null] once its default is applied. *)
Definition with_default (framebuffer : Arg (option WebGLFramebuffer))
  : option WebGLFramebuffer :=
  match framebuffer with Passed fb => fb | _ => None end.

Definition new (framebuffer : Arg (option WebGLFramebuffer)) : M unit t :=
  let argc := arguments_length framebuffer in
  let framebuffer := with_default framebuffer in
  let* fb :=
    if (argc =? 2)%Z then ret framebuffer
    else gl_ask on_createFramebuffer createFramebuffer in
  ret {| framebuffer := fb; renderbuffer := None |}.

Definition bind_ : M t unit :=
  let* this := get_this in
  gl_do (bindFramebuffer FRAMEBUFFER (framebuffer this)).

Definition unbind : M t unit :=
  gl_do (bindFramebuffer FRAMEBUFFER None).

Definition attach (texture : Texture) (i : option number) : M t unit :=
  let i := default 0 i in
  (if (i =? 0)%Z then bind_ else ret tt) ;;;
  gl_do (framebufferTexture2D FRAMEBUFFER (COLOR_ATTACHMENT0 + i)
           TEXTURE_2D (texture_handle texture) 0).

Definition attachDepth (width height : number) : M t unit :=
  bind_ ;;;
  let* this := get_this in
  match renderbuffer this with
  | None =>
      let* rb := gl_ask on_createRenderbuffer createRenderbuffer in
      set_this {| framebuffer := framebuffer this; renderbuffer := rb |} ;;;
      gl_do (renderbufferStorage RENDERBUFFER DEPTH_COMPONENT16
               width height) ;;;
      gl_do (framebufferRenderbuffer FRAMEBUFFER DEPTH_ATTACHMENT
               RENDERBUFFER rb)
  | Some _ => ret tt
  end.

End Framebuffer.

(** ** Program *)

(** The members of the context that a computed entry-point name can hit. *)
Definition context_methods : list string :=
  [ "uniform1fv"; "uniform2fv"; "uniform3fv"; "uniform4fv";
    "uniform1iv"; "uniform2iv"; "uniform3iv"; "uniform4iv";
    "uniformMatrix2fv"; "uniformMatrix3fv"; "uniformMatrix4fv" ].

(** [gl[method](...)]: calling a member that is not there is a [TypeError]. *)
Definition invoke {T} (method : string) (call : GLCall) : M T unit :=
  if bool_decide (method ∈ context_methods) then gl_do call
  else throw TypeError.

Module Program.

Record t : Type := mk {
  program : WebGLProgram;
  vars : gmap string Location
}.

Definition makeShader {T} (type : Z) (source : string) : M T WebGLShader :=
  let* shader := gl_ask (λ d h, on_createShader d h type)
                   (createShader type) in
  match shader with
  | None => throw (Error "Failed to create shader")
  | Some shader =>
      gl_do (shaderSource shader source) ;;;
      gl_do (compileShader shader) ;;;
      let* status :=
        gl_ask (λ d h, on_getShaderParameter d h shader COMPILE_STATUS)
          (getShaderParameter shader COMPILE_STATUS) in
      if status then ret shader
      else
        let* log := gl_ask (λ d h, on_getShaderInfoLog d h shader)
                      (getShaderInfoLog shader) in
        throw (Error (or_default log "Failed to compile shader"))
  end.

Definition new (vertex fragment : string) : M unit t :=
  let* p := gl_ask on_createProgram createProgram in
  match p with
  | None => throw (Error "Failed to create program")
  | Some p =>
      let* vs := makeShader VERTEX_SHADER vertex in
      gl_do (attachShader p vs) ;;;
      let* fs := makeShader FRAGMENT_SHADER fragment in
      gl_do (attachShader p fs) ;;;
      gl_do (linkProgram p) ;;;
      let* status :=
        gl_ask (λ d h, on_getProgramParameter d h p LINK_STATUS)
          (getProgramParameter p LINK_STATUS) in
      if negb status then
        let* log := gl_ask (λ d h, on_getProgramInfoLog d h p)
                      (getProgramInfoLog p) in
        throw (Error (or_default log "Failed to link program"))
      else ret {| program := p; vars := ∅ |}
  end.

(** [this.vars[name] = loc]. *)
Definition set_var (name : string) (loc : Location) : M t unit :=
  let* this := get_this in
  set_this {| program := program this;
              vars := <[name := loc]> (vars this) |}.

Definition uniform (name : string) (value : Value) (i : option bool)
    (dim : option JSNumber) : M t unit :=
  let* this := get_this in
  (if is_nullish (vars_get (vars this) name) then
     let* loc :=
       gl_ask (λ d h, on_getUniformLocation d h (program this) name)
         (getUniformLocation (program this) name) in
     match loc with
     | None =>
         throw (Error ("Failed to locate uniform '" +:+ name +:+ "'"))
     | Some loc => set_var name (UniformLoc loc)
     end
   else ret tt) ;;;
  let* this := get_this in
  let v := vars_get (vars this) name in
  if isArray value then
    let l := if truthy_number dim then dim else Value_length value in
    let method :=
      "uniform" +:+ JSNumber_to_string l
      +:+ (if truthy_bool i then "i" else "f") +:+ "v" in
    invoke method (uniform_vector method v value)
  else
    match value with
    | VNumber _ | VBoolean _ =>
        if truthy_bool i then gl_do (uniform1i v value)
        else gl_do (uniform1f v value)
    | _ => throw (Error ("Invalid uniform value: " +:+ ToString value))
    end.

Definition matrix (name : string) (matrix : list number)
    (transpose : option bool) : M t unit :=
  let* this := get_this in
  (if is_nullish (vars_get (vars this) name) then
     let* loc :=
       gl_ask (λ d h, on_getUniformLocation d h (program this) name)
         (getUniformLocation (program this) name) in
     match loc with
     | None =>
         throw (Error ("Failed to locate uniform '" +:+ name +:+ "'"))
     | Some loc => set_var name (UniformLoc loc)
     end
   else ret tt) ;;;
  let method :=
    "uniformMatrix"
    +:+ Root_to_string (Math_sqrt (Z.of_nat (length matrix))) +:+ "fv" in
  let* this := get_this in
  invoke method
    (uniform_matrix method (vars_get (vars this) name)
       (truthy_bool transpose) matrix).

Definition uniformi (name : string) (value : Value) : M t unit :=
  uniform name value (Some true) None.

Definition attrib (name : string) (value : Buffer.t) (size : number)
    (stride : option number) : M t unit :=
  let* this := get_this in
  (if is_nullish (vars_get (vars this) name) then
     let* loc :=
       gl_ask (λ d h, on_getAttribLocation d h (program this) name)
         (getAttribLocation (program this) name) in
     set_var name (AttribLoc loc)
   else ret tt) ;;;
  Buffer.bind_ value ;;;
  let* this := get_this in
  gl_do (enableVertexAttribArray (vars_get (vars this) name)) ;;;
  let* this := get_this in
  gl_do (vertexAttribPointer (vars_get (vars this) name) size FLOAT false
           (match stride with None => 0 | Some s => s end) 0).

Definition disable : M t unit :=
  let* this := get_this in
  for_each (for_in_keys (vars this)) (λ attrib,
    let location := vars_get (vars this) attrib in
    if hasOwnProperty (vars this) attrib then
      match location with
      | Own (AttribLoc location) =>
          gl_do (disableVertexAttribArray location)
      | _ => ret tt
      end
    else ret tt).

End Program.

(** ** Igloo *)

Module Igloo.

(** The value held by the field [gl]: a context, or the canvas the
    constructor was given, which the cast [gl as WebGLAnyContext] would
    let through. *)
Inductive Handle : Type :=
| OfContext (ctx : Context)
| OfCanvas (canvas : Canvas).

Record t : Type := mk {
  gl : Handle;
  canvas : Canvas;
  defaultFramebuffer : Framebuffer.t
}.

Definition getContext {T} (canvas : Canvas)
    (options : option (gmap string Value)) (noerror : option bool)
  : M T (option Context) :=
  let attributes := default ∅ options in
  let* reply :=
    gl_ask (λ d h, on_getContext d h canvas "webgl2" attributes)
      (canvas_getContext canvas "webgl2" attributes) in
  let gl := match reply with Raises => None | Returns ctx => ctx end in
  if bool_decide (gl = None) && negb (truthy_bool noerror) then
    throw (Error "Could not create WebGL context.")
  else ret gl.

Definition new (gl : Canvas + Context)
    (options : option (gmap string Value)) : M unit t :=
  let* wrapped :=
    match gl with
    | inl element =>
        let* temp := getContext element options None in
        ret (match temp with
             | Some ctx => OfContext ctx
             | None => OfCanvas element
             end, element)
    | inr ctx => λ d s, (Ok (OfContext ctx, canvas_of d ctx), s)
    end in
  let* fb := construct (Framebuffer.new (Passed None)) in
  ret {| gl := wrapped.1; canvas := wrapped.2; defaultFramebuffer := fb |}.

Definition framebuffer (texture : option Texture) : M t Framebuffer.t :=
  let* fb := construct (Framebuffer.new Omitted) in
  match texture with
  | Some texture =>
      λ d s,
        let '(r, (fb', h)) := Framebuffer.attach texture None d (fb, s.2) in
        (match r with Ok _ => Ok fb' | Throw e => Throw e end, (s.1, h))
  | None => ret fb
  end.

End Igloo.

(** ** Sample contexts, for concrete runs *)

(** The source last given to a shader, read back from the log. *)
Fixpoint source_of (h : History) (sh : WebGLShader) : option string :=
  match h with
  | [] => None
  | call :: rest =>
      match source_of rest sh with
      | Some src => Some src
      | None =>
          match call with
          | shaderSource sh' src => if (sh' =? sh)%N then Some src else None
          | _ => None
          end
      end
  end.

(** A context scripted by what compiles, what links, which uniforms and
    attributes exist, and what a canvas answers.  Handles are numbered by
    the length of the log. *)
Definition mock (compiles : string → bool) (shader_log : option string)
    (links : bool) (program_log : option string)
    (uniforms : string → option WebGLUniformLocation)
    (attributes : string → number) (reply : ContextReply) : Driver :=
  {| on_createFramebuffer h := Some (N.of_nat (length h));
     on_createRenderbuffer h := Some (N.of_nat (length h));
     on_createBuffer h := Some (N.of_nat (length h));
     on_createProgram h := Some (N.of_nat (length h));
     on_createShader h _ := Some (N.of_nat (length h));
     on_getShaderParameter h sh _ :=
       match source_of h sh with Some src => compiles src | None => false end;
     on_getShaderInfoLog _ _ := shader_log;
     on_getProgramParameter _ _ _ := links;
     on_getProgramInfoLog _ _ := program_log;
     on_getUniformLocation _ _ name := uniforms name;
     on_getAttribLocation _ _ name := attributes name;
     on_getContext _ _ _ _ := reply;
     canvas_of ctx := ctx |}.

(** A shader source compiles unless it is the text ["#error"]. *)
Definition compiles_unless_error (src : string) : bool :=
  negb (String.eqb src "#error").

(** Uniforms [tint] and [scale] exist, and nothing else. *)
Definition demo_uniforms (name : string) : option WebGLUniformLocation :=
  if String.eqb name "tint" then Some 7%N
  else if String.eqb name "scale" then Some 8%N
  else None.

(** Attribute [points] is at index 0, [colors] at index 1; others are not
    found. *)
Definition demo_attributes (name : string) : number :=
  if String.eqb name "points" then 0
  else if String.eqb name "colors" then 1
  else -1.

Definition demo_driver : Driver :=
  mock compiles_unless_error (Some "ERROR: 0:1: unexpected token") true
    (Some "ERROR: varying mismatch") demo_uniforms demo_attributes
    (Returns (Some 1%N)).

(** A context in which every uniform name resolves, to location 9. *)
Definition generous_driver : Driver :=
  mock compiles_unless_error None true None (λ _, Some 9%N)
    demo_attributes (Returns (Some 1%N)).

(** A context in which nothing links and whose diagnostic logs are empty
    strings. *)
Definition silent_driver : Driver :=
  mock compiles_unless_error (Some "") false (Some "") demo_uniforms
    demo_attributes (Returns (Some 1%N)).

(** A context in which nothing links, with a diagnostic log. *)
Definition unlinkable_driver : Driver :=
  mock compiles_unless_error (Some "ERROR: 0:1: unexpected token") false
    (Some "ERROR: varying mismatch") demo_uniforms demo_attributes
    (Returns (Some 1%N)).

(** A context on a canvas whose [getContext] raises an exception. *)
Definition raising_driver : Driver :=
  mock compiles_unless_error None true None demo_uniforms demo_attributes
    Raises.

(** A context on a canvas that yields no rendering context. *)
Definition headless_driver : Driver :=
  mock compiles_unless_error None true None demo_uniforms demo_attributes
    (Returns None).

(** ** Vocabulary of the statements *)

Fixpoint count_calls (f : GLCall → bool) (h : History) : nat :=
  match h with
  | [] => 0
  | call :: rest => (if f call then 1 else 0) + count_calls f rest
  end.

(** A query of the location resolver for [name]. *)
Definition is_location_query (name : string) (call : GLCall) : bool :=
  match call with
  | getUniformLocation _ n _ | getAttribLocation _ n _ => String.eqb n name
  | _ => false
  end.

Definition location_queries (name : string) (h : History) : nat :=
  count_calls (is_location_query name) h.

(** The two halves of [Program.uniform]: resolving the location, then
    dispatching on the value. *)
Definition locate_uniform (name : string) : M Program.t unit :=
  let* this := get_this in
  if is_nullish (vars_get (Program.vars this) name) then
    let* loc :=
      gl_ask (λ d h, on_getUniformLocation d h (Program.program this) name)
        (getUniformLocation (Program.program this) name) in
    match loc with
    | None => throw (Error ("Failed to locate uniform '" +:+ name +:+ "'"))
    | Some loc => Program.set_var name (UniformLoc loc)
    end
  else ret tt.

Definition dispatch_uniform (name : string) (value : Value)
    (i : option bool) (dim : option JSNumber) : M Program.t unit :=
  let* this := get_this in
  let v := vars_get (Program.vars this) name in
  if isArray value then
    let l := if truthy_number dim then dim else Value_length value in
    let method :=
      "uniform" +:+ JSNumber_to_string l
      +:+ (if truthy_bool i then "i" else "f") +:+ "v" in
    invoke method (uniform_vector method v value)
  else
    match value with
    | VNumber _ | VBoolean _ =>
        if truthy_bool i then gl_do (uniform1i v value)
        else gl_do (uniform1f v value)
    | _ => throw (Error ("Invalid uniform value: " +:+ ToString value))
    end.

Definition dispatch_matrix (name : string) (matrix : list number)
    (transpose : option bool) : M Program.t unit :=
  let method :=
    "uniformMatrix"
    +:+ Root_to_string (Math_sqrt (Z.of_nat (length matrix))) +:+ "fv" in
  let* this := get_this in
  invoke method
    (uniform_matrix method (vars_get (Program.vars this) name)
       (truthy_bool transpose) matrix).

Definition bind_attrib (name : string) (value : Buffer.t) (size : number)
    (stride : option number) : M Program.t unit :=
  Buffer.bind_ value ;;;
  let* this := get_this in
  gl_do (enableVertexAttribArray (vars_get (Program.vars this) name)) ;;;
  let* this := get_this in
  gl_do (vertexAttribPointer (vars_get (Program.vars this) name) size FLOAT
           false (match stride with None => 0 | Some s => s end) 0).

(** A computation that leaves the program record alone and asks the
    location resolver nothing. *)
Definition frames (m : M Program.t unit) : Prop :=
  ∀ (d : Driver) (p : Program.t) (h : History),
    (m d (p, h)).2.1 = p
    ∧ ∀ n, location_queries n (m d (p, h)).2.2 = location_queries n h.

Definition locate_attrib (name : string) : M Program.t unit :=
  let* this := get_this in
  if is_nullish (vars_get (Program.vars this) name) then
    let* loc :=
      gl_ask (λ d h, on_getAttribLocation d h (Program.program this) name)
        (getAttribLocation (Program.program this) name) in
    Program.set_var name (AttribLoc loc)
  else ret tt.

(** Reading a decimal numeral back. *)
Definition string_to_number (s : string) : option number :=
  option_map Z.of_int (NilZero.int_of_string s).

(** A string cut [n] characters before its end. *)
Definition front (n : nat) (s : string) : string :=
  String.substring 0 (String.length s - n) s.

Definition back (n : nat) (s : string) : string :=
  String.substring (String.length s - n) n s.

(** The size [Program.uniform] prints into the name of a vector entry
    point: the [dim] argument when it is truthy, the length otherwise. *)
Definition vector_size (dim : option JSNumber) (value : Value)
  : option JSNumber :=
  if truthy_number dim then dim else Value_length value.

(** The vector entry points of the context, by size and variant. *)
Definition vector_entry (n : Z) (integer : bool) : option string :=
  match n with
  | 1 => Some (if integer then "uniform1iv" else "uniform1fv")
  | 2 => Some (if integer then "uniform2iv" else "uniform2fv")
  | 3 => Some (if integer then "uniform3iv" else "uniform3fv")
  | 4 => Some (if integer then "uniform4iv" else "uniform4fv")
  | _ => None
  end.

(** The vector entry point for a size that may be no integer, or
    [undefined]: only an integer has one. *)
Definition sized_entry (size : option JSNumber) (integer : bool)
  : option string :=
  match size with
  | Some (Integer n) => vector_entry n integer
  | _ => None
  end.

(** A character occurs in a string. *)
Fixpoint mentions (c : Ascii.ascii) (s : string) : bool :=
  match s with
  | EmptyString => false
  | String c' rest => Ascii.eqb c c' || mentions c rest
  end.

(** The square-matrix entry points of the context, by dimension. *)
Definition matrix_entry (n : Z) : option string :=
  match n with
  | 2 => Some "uniformMatrix2fv"
  | 3 => Some "uniformMatrix3fv"
  | 4 => Some "uniformMatrix4fv"
  | _ => None
  end.



(** The context a canvas reply amounts to, a raised exception being caught. *)
Definition context_of_reply (reply : ContextReply) : option Context :=
  match reply with
  | Raises => None
  | Returns ctx => ctx
  end.

(** A framebuffer wrapper before any depth attachment. *)
Definition plain_framebuffer : Framebuffer.t :=
  {| Framebuffer.framebuffer := Some 0%N; Framebuffer.renderbuffer := None |}.

(** Context attributes by which a caller might try to ask for the
    "no error" mode. *)
Definition no_error_options : gmap string Value :=
  {[ "noerror" := VBoolean true ]}.

(** The attribute indices among the entries of a table: the values that
    are numbers. *)
Definition attribute_indices (entries : list (string * Location))
  : list number :=
  omap (λ entry, match entry.2 with
                 | AttribLoc index => Some index
                 | UniformLoc _ => None
                 end) entries.

(** A program just constructed: handle 0, nothing resolved yet. *)
Definition fresh_program : Program.t :=
  {| Program.program := 0%N; Program.vars := ∅ |}.

Definition fresh_buffer : Buffer.t :=
  {| Buffer.buffer := Some 0%N; Buffer.target := ARRAY_BUFFER;
     Buffer.size := -1 |}.

(** ** Further methods: buffers made by the facade *)

(** A method run on another object: its calls join the log, and the object
    is returned as the method left it. *)
Definition method_on {T U} (obj : U) (m : M U unit) : M T U :=
  λ d s,
    let '(r, (obj', h)) := m d (obj, s.2) in
    (match r with Ok _ => Ok obj' | Throw e => Throw e end, (s.1, h)).

(** [Igloo.array]. *)
Definition Igloo_array {T} (data : option Payload) (usage : option Z)
  : M T Buffer.t :=
  let* buffer := construct (Buffer.new (Some ARRAY_BUFFER)) in
  match data with
  | Some data =>
      method_on buffer
        (Buffer.update data
           (Some (match usage with None => STATIC_DRAW | Some u => u end)))
  | None => ret buffer
  end.

(** [Igloo.elements]. *)
Definition Igloo_elements {T} (data : option Payload) (usage : option Z)
  : M T Buffer.t :=
  let* buffer := construct (Buffer.new (Some ELEMENT_ARRAY_BUFFER)) in
  match data with
  | Some data =>
      method_on buffer
        (Buffer.update data
           (Some (match usage with None => STATIC_DRAW | Some u => u end)))
  | None => ret buffer
  end.

(** A run of [update] calls on one buffer, one per payload. *)
Definition updates (payloads : list Payload) (usage : option Z)
  : M Buffer.t unit :=
  for_each payloads (λ data, Buffer.update data usage).

Definition is_bufferData (call : GLCall) : bool :=
  match call with bufferData _ _ _ => true | _ => false end.

Definition is_bufferSubData (call : GLCall) : bool :=
  match call with bufferSubData _ _ _ => true | _ => false end.

Definition is_createFramebuffer (call : GLCall) : bool :=
  match call with createFramebuffer _ => true | _ => false end.

(** A lost context: every creation answers [null]. *)
Definition lost_driver : Driver :=
  {| on_createFramebuffer _ := None;
     on_createRenderbuffer _ := None;
     on_createBuffer _ := None;
     on_createProgram _ := None;
     on_createShader _ _ := None;
     on_getShaderParameter _ _ _ := false;
     on_getShaderInfoLog _ _ := None;
     on_getProgramParameter _ _ _ := false;
     on_getProgramInfoLog _ _ := None;
     on_getUniformLocation _ _ _ := None;
     on_getAttribLocation _ _ _ := -1;
     on_getContext _ _ _ _ := Returns None;
     canvas_of ctx := ctx |}.

(** ** Further methods: shader sources given by URL *)

(** The white space of the pattern [\s], among code units below 256 (a
    character of a [string] stands for such a code unit): tab, line feed,
    vertical tab, form feed, carriage return, space, no-break space. *)
Definition is_white_space (c : Ascii.ascii) : bool :=
  let n := Ascii.nat_of_ascii c in
  ((9 <=? n) && (n <=? 13) || (n =? 32) || (n =? 160))%nat.

(** [/\s/.exec(string) != null]. *)
Fixpoint has_white_space (s : string) : bool :=
  match s with
  | EmptyString => false
  | String c rest => is_white_space c || has_white_space rest
  end.

(** [Igloo.looksLikeURL]. *)
Definition looksLikeURL (s : string) : bool := negb (has_white_space s).

(** A result obtained outside the context, taken into a computation. *)
Definition of_result {T A} (r : Result A) : M T A := λ _ s, (r, s).

(** [Igloo.program].  The synchronous [Igloo.fetch] is a parameter: what
    the request for a URL returns, or the exception it raises. *)
Definition Igloo_program {T} (fetch : string → Result string)
    (vertex fragment : string) (transform : option (string → string))
  : M T Program.t :=
  let* vertex :=
    if looksLikeURL vertex then of_result (fetch vertex) else ret vertex in
  let* fragment :=
    if looksLikeURL fragment then of_result (fetch fragment)
    else ret fragment in
  match transform with
  | Some transform =>
      construct (Program.new (transform vertex) (transform fragment))
  | None => construct (Program.new vertex fragment)
  end.

(** ** Textures and draw calls: the rest of the context *)

Definition NO_ERROR : Z := 0.
Definition UNSIGNED_BYTE : Z := 5121.
Definition RGBA : Z := 6408.
Definition LINEAR : Z := 9729.
Definition TEXTURE_MAG_FILTER : Z := 10240.
Definition TEXTURE_MIN_FILTER : Z := 10241.
Definition TEXTURE_WRAP_S : Z := 10242.
Definition TEXTURE_WRAP_T : Z := 10243.
Definition CLAMP_TO_EDGE : Z := 33071.
Definition TEXTURE0 : Z := 33984.

(** What an upload is handed: binary data, or an image source (an image,
    canvas or video element). *)
Inductive Pixels : Type :=
| PixelData (data : BufferSource)
| Image (id : N).

(** What callers may hand to [Texture.set]: a plain array or pixels. *)
Inductive TexSource : Type :=
| ArraySource (xs : list number)
| PixelSource (pixels : Pixels).

(** [new Uint8Array(xs)]; the elements stand for their conversions to
    bytes. *)
Definition Uint8Array_from (xs : list number) : BufferSource :=
  View Uint8 xs.

(** [new Float32Array(xs)]; the elements stand for their roundings. *)
Definition Float32Array_from (xs : list number) : BufferSource :=
  View Float32 xs.

(** The calls on textures and the draw calls, kept in a log of their own. *)
Inductive RenderCall : Type :=
| createTexture (ret : option WebGLTexture)
| bindTexture (target : Z) (texture : option WebGLTexture)
| activeTexture (unit : Z)
| texParameteri (target pname param : Z)
| texImage2D (target level internalformat : Z) (width height border : number)
    (format type : Z) (pixels : option Pixels)
| texImage2D_source (target level internalformat format type : Z)
    (source : option Pixels)
| texSubImage2D (target level : Z) (xoffset yoffset width height : number)
    (format type : Z) (pixels : option Pixels)
| texSubImage2D_source (target level : Z) (xoffset yoffset : number)
    (format type : Z) (source : option Pixels)
| copyTexImage2D (target level internalformat : Z)
    (x y width height border : number)
| useProgram (p : WebGLProgram)
| drawArrays (mode : Z) (first count : number)
| drawElements (mode : Z) (count : number) (type : Z) (offset : number)
| getError (ret : Z).

Record RenderDriver : Type := {
  on_createTexture : list RenderCall → option WebGLTexture;
  on_getError : list RenderCall → Z
}.

(** The method monad over that log. *)
Definition R (T A : Type) : Type :=
  RenderDriver → T * list RenderCall → Result A * (T * list RenderCall).

Definition r_ret {T A} (a : A) : R T A := λ _ s, (Ok a, s).

Definition r_throw {T A} (e : Exn) : R T A := λ _ s, (Throw e, s).

Definition r_bind {T A B} (m : R T A) (k : A → R T B) : R T B :=
  λ d s,
    match m d s with
    | (Ok a, s') => k a d s'
    | (Throw e, s') => (Throw e, s')
    end.

Notation "'let+' x := m 'in' k" := (r_bind m (λ x, k))
  (at level 10, x name, m at level 99, k at level 200).
Notation "m ;;+ k" := (r_bind m (λ _, k))
  (at level 100, k at level 200, right associativity).

Definition r_this {T} : R T T := λ _ s, (Ok s.1, s).

Definition r_ask {T A} (answer : RenderDriver → list RenderCall → A)
    (call : A → RenderCall) : R T A :=
  λ d s, let r := answer d s.2 in (Ok r, (s.1, s.2 ++ [call r])).

Definition r_do {T} (call : RenderCall) : R T unit :=
  λ _ s, (Ok tt, (s.1, s.2 ++ [call])).

Definition r_construct {T A} (c : R unit A) : R T A :=
  λ d s, let '(r, (_, h)) := c d (tt, s.2) in (r, (s.1, h)).

Definition r_method_on {T U} (obj : U) (m : R U unit) : R T U :=
  λ d s,
    let '(r, (obj', h)) := m d (obj, s.2) in
    (match r with Ok _ => Ok obj' | Throw e => Throw e end, (s.1, h)).

Module Texture.

Record t : Type := mk {
  texture : option WebGLTexture;
  format : Z;
  internalFormat : Z;
  type : Z
}.

Definition new (format wrap filter type internalFormat : option Z)
  : R unit t :=
  let+ texture := r_ask on_createTexture createTexture in
  r_do (bindTexture TEXTURE_2D texture) ;;+
  let wrap := match wrap with None => CLAMP_TO_EDGE | Some w => w end in
  let filter := match filter with None => LINEAR | Some f => f end in
  r_do (texParameteri TEXTURE_2D TEXTURE_WRAP_S wrap) ;;+
  r_do (texParameteri TEXTURE_2D TEXTURE_WRAP_T wrap) ;;+
  r_do (texParameteri TEXTURE_2D TEXTURE_MIN_FILTER filter) ;;+
  r_do (texParameteri TEXTURE_2D TEXTURE_MAG_FILTER filter) ;;+
  r_ret {| texture := texture;
           format := match format with None => RGBA | Some f => f end;
           internalFormat :=
             match internalFormat with None => RGBA | Some f => f end;
           type := match type with None => UNSIGNED_BYTE | Some t => t end |}.

Definition bind_ (texunit : option number) : R t unit :=
  let+ this := r_this in
  match texunit with
  | Some texunit => r_do (activeTexture (TEXTURE0 + texunit))
  | None => r_ret tt
  end ;;+
  r_do (bindTexture TEXTURE_2D (texture this)).


(** [source instanceof Array]: a plain array becomes a typed array, of
    floats on a texture of type [FLOAT] and of bytes on any other. *)
Definition to_pixels (this : t) (source : option TexSource)
  : option Pixels :=
  match source with
  | Some (ArraySource xs) =>
      Some (PixelData (if (type this =? FLOAT)%Z then Float32Array_from xs
                       else Uint8Array_from xs))
  | Some (PixelSource pixels) => Some pixels
  | None => None
  end.

Definition set (source : option TexSource) (width height : option number)
  : R t unit :=
  bind_ None ;;+
  let+ this := r_this in
  let source := to_pixels this source in
  match width, height with
  | Some width, Some height =>
      r_do (texImage2D TEXTURE_2D 0 (internalFormat this) width height 0
              (format this) (type this) source)
  | _, _ =>
      r_do (texImage2D_source TEXTURE_2D 0 (internalFormat this)
              (format this) (type this) source)
  end.

Definition subset (source : option TexSource) (xoff yoff : number)
    (width height : option number) : R t unit :=
  bind_ None ;;+
  let+ this := r_this in
  let source := to_pixels this source in
  match width, height with
  | Some width, Some height =>
      r_do (texSubImage2D TEXTURE_2D 0 xoff yoff width height
              (format this) (type this) source)
  | _, _ =>
      r_do (texSubImage2D_source TEXTURE_2D 0 xoff yoff
              (format this) (type this) source)
  end.


End Texture.

(** The options of [Igloo.texture]. *)
Record TextureOptions : Type := {
  options_type : string;
  options_width : option number;
  options_height : option number
}.

(** [Igloo.texture]. *)
Definition Igloo_texture {T} (source : option TexSource)
    (format wrap filter type internalFormat : option Z)
    (options : option TextureOptions) : R T Texture.t :=
  let+ texture :=
    r_construct (Texture.new format wrap filter type internalFormat) in
  match source with
  | Some _ =>
      match options with
      | Some o =>
          if String.eqb (options_type o) "ArrayBufferView" then
            r_method_on texture
              (Texture.set source (options_width o) (options_height o))
          else r_method_on texture (Texture.set source None None)
      | None => r_method_on texture (Texture.set source None None)
      end
  | None => r_ret texture
  end.

(** [Program.use]. *)
Definition Program_use : R Program.t unit :=
  let+ this := r_this in
  r_do (useProgram (Program.program this)).

(** [Program.draw]. *)
Definition Program_draw {T} (mode : Z) (count : number) (type : option Z)
  : R T unit :=
  match type with
  | None => r_do (drawArrays mode 0 count)
  | Some type => r_do (drawElements mode count type 0)
  end ;;+
  let+ error := r_ask on_getError getError in
  if negb (error =? NO_ERROR)%Z then r_throw (Error "WebGL rendering error")
  else r_ret tt.

(** A render context whose textures are numbered by the length of the log
    and whose error flag is a given value. *)
Definition render_mock (error : Z) : RenderDriver :=
  {| on_createTexture h := Some (N.of_nat (length h));
     on_getError _ := error |}.

Definition byte_texture : Texture.t :=
  {| Texture.texture := Some 0%N; Texture.format := RGBA;
     Texture.internalFormat := RGBA; Texture.type := UNSIGNED_BYTE |}.

(** The pixels handed over by the last call of a log, if it is an upload. *)
Definition uploaded (h : list RenderCall) : option Pixels :=
  match last h with
  | Some (texImage2D _ _ _ _ _ _ _ _ pixels)
  | Some (texImage2D_source _ _ _ _ _ pixels)
  | Some (texSubImage2D _ _ _ _ _ _ _ _ pixels)
  | Some (texSubImage2D_source _ _ _ _ _ _ pixels) => pixels
  | _ => None
  end.



(** * Properties *)

(** ** Buffer.update *)

Lemma Buffer_update_size (d : Driver) (b : Buffer.t) (h : History)
    (data : Payload) (usage : option Z) :
  Buffer.size (Buffer.update data usage d (b, h)).2.1
  = byteLength (Buffer.to_source data).
Proof.
  unfold Buffer.update, bind, get_this, Buffer.bind_, gl_do, set_this; simpl.
  destruct (Z.eqb_spec (Buffer.size b) (byteLength (Buffer.to_source data)));
    simpl; congruence.
Qed.

Lemma byteLength_nonneg (data : BufferSource) : 0 ≤ byteLength data.
Proof. destruct data as [[] xs|bs]; simpl; lia. Qed.

(** C1. Of two consecutive [update] calls the first leaves the byte length
    of its payload as recorded size.  If the payload of the second has that
    byte length, the second call binds the buffer and overwrites it in
    place from offset zero, without [bufferData], and the record is
    unchanged; if it has another byte length, the second call reallocates
    with [bufferData] and records the new byte length. *)
Theorem Buffer_update_twice (d : Driver) (b : Buffer.t) (h : History)
    (data1 data2 : Payload) (usage1 usage2 : option Z) :
  let s1 := (Buffer.update data1 usage1 d (b, h)).2 in
  let run2 := Buffer.update data2 usage2 d s1 in
  let src := Buffer.to_source data2 in
  Buffer.size s1.1 = byteLength (Buffer.to_source data1) ∧
  (byteLength src = Buffer.size s1.1 →
     run2 = (Ok tt,
             (s1.1,
              s1.2 ++ [ bindBuffer (Buffer.target b) (Buffer.buffer b);
                        bufferSubData (Buffer.target b) 0 src ]))) ∧
  (byteLength src ≠ Buffer.size s1.1 →
     run2 = (Ok tt,
             ({| Buffer.buffer := Buffer.buffer b;
                 Buffer.target := Buffer.target b;
                 Buffer.size := byteLength src |},
              s1.2 ++ [ bindBuffer (Buffer.target b) (Buffer.buffer b);
                        bufferData (Buffer.target b) src
                          (default DYNAMIC_DRAW usage2) ]))).
Proof.
  intros s1 run2 src.
  split; [apply Buffer_update_size|].
  assert (Hfields : Buffer.target s1.1 = Buffer.target b
                    ∧ Buffer.buffer s1.1 = Buffer.buffer b).
  { subst s1. unfold Buffer.update, bind, get_this, Buffer.bind_, gl_do,
      set_this; simpl.
    destruct (Buffer.size b =? byteLength (Buffer.to_source data1))%Z;
      simpl; auto. }
  destruct Hfields as [Ht Hb].
  subst run2. destruct s1 as [b1 h1]; simpl in *.
  unfold Buffer.update, bind, get_this, Buffer.bind_, gl_do, set_this; simpl.
  fold src. rewrite Ht, Hb.
  split; intros Hlen.
  - rewrite Hlen, Z.eqb_refl; simpl.
    rewrite <- app_assoc; simpl. reflexivity.
  - destruct (Z.eqb_spec (Buffer.size b1) (byteLength src)) as [E|E];
      [congruence|]; simpl.
    rewrite <- !app_assoc; simpl.
    destruct usage2; reflexivity.
Qed.

Lemma Buffer_update_twice_witness :
  let s1 :=
    (Buffer.update (PlainArray [1; 2; 3; 4]) None demo_driver
       (fresh_buffer, [])).2 in
  (byteLength (View Float32 [5; 6; 7; 8]) = Buffer.size s1.1
   ∧ Buffer.update (Binary (View Float32 [5; 6; 7; 8])) None demo_driver s1
     = (Ok tt,
        (s1.1,
         s1.2 ++ [ bindBuffer ARRAY_BUFFER (Some 0%N);
                   bufferSubData ARRAY_BUFFER 0
                     (View Float32 [5; 6; 7; 8]) ])))
  ∧ (byteLength (View Float32 [5; 6]) ≠ Buffer.size s1.1
     ∧ Buffer.update (PlainArray [5; 6]) (Some STATIC_DRAW) demo_driver s1
       = (Ok tt,
          ({| Buffer.buffer := Some 0%N; Buffer.target := ARRAY_BUFFER;
              Buffer.size := 8 |},
           s1.2 ++ [ bindBuffer ARRAY_BUFFER (Some 0%N);
                     bufferData ARRAY_BUFFER (View Float32 [5; 6])
                       STATIC_DRAW ]))).
Proof.
  intros s1.
  destruct (Buffer_update_twice demo_driver fresh_buffer []
              (PlainArray [1; 2; 3; 4]) (Binary (View Float32 [5; 6; 7; 8]))
              None None) as (_ & Hsame & _).
  destruct (Buffer_update_twice demo_driver fresh_buffer []
              (PlainArray [1; 2; 3; 4]) (PlainArray [5; 6])
              None (Some STATIC_DRAW)) as (_ & _ & Hdiff).
  split; split.
  - reflexivity.
  - apply Hsame. reflexivity.
  - vm_compute. discriminate.
  - apply Hdiff. vm_compute. discriminate.
Defined.

(** A buffer that has never been updated reallocates on its first
    [update], whatever the payload: no payload has the initial size. *)
Lemma Buffer_first_update_reallocates (d : Driver) (h : History)
    (buffer : option WebGLBuffer) (target : Z) (data : Payload)
    (usage : option Z) :
  let b := {| Buffer.buffer := buffer; Buffer.target := target;
              Buffer.size := -1 |} in
  (Buffer.update data usage d (b, h)).2.2
  = h ++ [ bindBuffer target buffer;
           bufferData target (Buffer.to_source data)
             (default DYNAMIC_DRAW usage) ].
Proof.
  intros b.
  unfold Buffer.update, bind, get_this, Buffer.bind_, gl_do, set_this.
  cbn -[Z.eqb byteLength].
  pose proof (byteLength_nonneg (Buffer.to_source data)) as Hpos.
  destruct (Z.eqb_spec (-1) (byteLength (Buffer.to_source data))); [lia|].
  cbn. rewrite <- !app_assoc. destruct usage; reflexivity.
Qed.

(** ** Program: resolving locations *)

Ltac run_M :=
  unfold bind, ret, throw, get_this, set_this, gl_ask, gl_do, construct,
    invoke, Program.set_var; simpl.

Lemma count_calls_app (f : GLCall → bool) (h1 h2 : History) :
  count_calls f (h1 ++ h2) = (count_calls f h1 + count_calls f h2)%nat.
Proof. induction h1 as [|c h1 IH]; simpl; [reflexivity|]. rewrite IH. lia. Qed.

Lemma uniform_split (name : string) (value : Value) (i : option bool)
    (dim : option JSNumber) :
  Program.uniform name value i dim
  = (locate_uniform name ;;; dispatch_uniform name value i dim).
Proof. reflexivity. Qed.

Lemma vars_get_insert (vars : gmap string Location) (name : string)
    (l : Location) :
  vars_get (<[name := l]> vars) name = Own l.
Proof. unfold vars_get. by rewrite lookup_insert_eq. Qed.

(** What resolving a uniform does, case by case. *)
Lemma locate_uniform_run (d : Driver) (p : Program.t) (h : History)
    (name : string) :
  locate_uniform name d (p, h) =
  match vars_get (Program.vars p) name with
  | Absent =>
      let answer := on_getUniformLocation d h (Program.program p) name in
      let h' := h ++ [getUniformLocation (Program.program p) name answer] in
      match answer with
      | Some loc =>
          (Ok tt,
           ({| Program.program := Program.program p;
               Program.vars := <[name := UniformLoc loc]> (Program.vars p) |},
            h'))
      | None =>
          (Throw (Error ("Failed to locate uniform '" +:+ name +:+ "'")),
           (p, h'))
      end
  | _ => (Ok tt, (p, h))
  end.
Proof.
  unfold locate_uniform. run_M.
  destruct (vars_get (Program.vars p) name); simpl; try reflexivity.
  destruct (on_getUniformLocation d h (Program.program p) name);
    reflexivity.
Qed.

Lemma locate_attrib_run (d : Driver) (p : Program.t) (h : History)
    (name : string) :
  locate_attrib name d (p, h) =
  match vars_get (Program.vars p) name with
  | Absent =>
      let answer := on_getAttribLocation d h (Program.program p) name in
      (Ok tt,
       ({| Program.program := Program.program p;
           Program.vars := <[name := AttribLoc answer]> (Program.vars p) |},
        h ++ [getAttribLocation (Program.program p) name answer]))
  | _ => (Ok tt, (p, h))
  end.
Proof.
  unfold locate_attrib. run_M.
  destruct (vars_get (Program.vars p) name); reflexivity.
Qed.

(** Resolving asks the resolver once when the name reads as [undefined]
    in the table, and not at all otherwise; it asks about no other name
    more than it did. *)
Lemma locate_uniform_queries (d : Driver) (p : Program.t) (h : History)
    (name : string) :
  location_queries name (locate_uniform name d (p, h)).2.2
  = (location_queries name h
     + if is_nullish (vars_get (Program.vars p) name) then 1 else 0)%nat.
Proof.
  rewrite locate_uniform_run.
  destruct (vars_get (Program.vars p) name); simpl; try lia.
  destruct (on_getUniformLocation d h (Program.program p) name); simpl;
    unfold location_queries; rewrite count_calls_app; simpl;
    rewrite String.eqb_refl; lia.
Qed.

(** Dispatching never touches the table and never asks the resolver. *)
Lemma dispatch_uniform_frame (d : Driver) (p : Program.t) (h : History)
    (name : string) (value : Value) (i : option bool) (dim : option JSNumber) :
  let run := dispatch_uniform name value i dim d (p, h) in
  run.2.1 = p ∧ ∀ n, location_queries n run.2.2 = location_queries n h.
Proof.
  unfold dispatch_uniform. run_M.
  destruct (isArray value).
  - case_bool_decide; simpl; split; try reflexivity; intros ?;
      unfold location_queries; rewrite ?count_calls_app; simpl; lia.
  - destruct value; simpl; try (split; reflexivity);
      destruct (truthy_bool i); simpl; split; try reflexivity; intros ?;
      unfold location_queries; rewrite count_calls_app; simpl; lia.
Qed.

Lemma dispatch_matrix_frame (name : string) (matrix : list number)
    (transpose : option bool) :
  frames (dispatch_matrix name matrix transpose).
Proof.
  intros d p h. unfold dispatch_matrix. run_M.
  case_bool_decide; simpl; split; try reflexivity; intros ?;
    unfold location_queries; rewrite ?count_calls_app; simpl; lia.
Qed.

Lemma bind_attrib_frame (name : string) (value : Buffer.t) (size : number)
    (stride : option number) :
  frames (bind_attrib name value size stride).
Proof.
  intros d p h. unfold bind_attrib, Buffer.bind_. run_M.
  split; [reflexivity|]. intros ?.
  unfold location_queries; rewrite !count_calls_app; simpl; lia.
Qed.

Lemma matrix_split (name : string) (matrix : list number)
    (transpose : option bool) :
  Program.matrix name matrix transpose
  = (locate_uniform name ;;; dispatch_matrix name matrix transpose).
Proof. reflexivity. Qed.

Lemma attrib_split (name : string) (value : Buffer.t) (size : number)
    (stride : option number) :
  Program.attrib name value size stride
  = (locate_attrib name ;;; bind_attrib name value size stride).
Proof. reflexivity. Qed.

(** The state after [locate ;;; rest], when [rest] frames. *)
Lemma after_locate (locate rest : M Program.t unit) (d : Driver)
    (p : Program.t) (h : History) :
  frames rest →
  let located := locate d (p, h) in
  let run := (locate ;;; rest) d (p, h) in
  run.2.1 = located.2.1
  ∧ ∀ n, location_queries n run.2.2 = location_queries n located.2.2.
Proof.
  intros Hrest located run. subst run located.
  change ((locate ;;; rest) d (p, h))
    with (match locate d (p, h) with
          | (Ok _, s') => rest d s'
          | (Throw e, s') => (Throw e, s')
          end).
  destruct (locate d (p, h)) as [[[]|e] [p' h']]; simpl;
    [|split; reflexivity].
  apply Hrest.
Qed.

(** Two calls that resolve the same uniform [name], which reads as
    [undefined] before the first and which the resolver finds: whatever
    else the calls do, the resolver is asked exactly once, by the first,
    and the table holds the location it answered. *)
Lemma locate_uniform_twice (d : Driver) (p : Program.t) (h : History)
    (name : string) (loc : WebGLUniformLocation)
    (rest1 rest2 : M Program.t unit) :
  frames rest1 → frames rest2 →
  vars_get (Program.vars p) name = Absent →
  on_getUniformLocation d h (Program.program p) name = Some loc →
  let s1 := ((locate_uniform name ;;; rest1) d (p, h)).2 in
  let s2 := ((locate_uniform name ;;; rest2) d s1).2 in
  location_queries name s1.2 = S (location_queries name h)
  ∧ location_queries name s2.2 = S (location_queries name h)
  ∧ Program.vars s1.1 = <[name := UniformLoc loc]> (Program.vars p)
  ∧ s2.1 = s1.1.
Proof.
  intros Hf1 Hf2 Habs Hloc s1 s2.
  destruct (after_locate (locate_uniform name) rest1 d p h Hf1)
    as [Hp1 Hq1].
  fold s1 in Hp1, Hq1.
  pose proof (locate_uniform_queries d p h name) as Hl1.
  pose proof (locate_uniform_run d p h name) as Hr1.
  rewrite Habs in Hl1, Hr1. simpl in Hl1, Hr1. rewrite Hloc in Hr1.
  rewrite Hr1 in Hp1. simpl in Hp1.
  assert (Hv1 : Program.vars s1.1
                = <[name := UniformLoc loc]> (Program.vars p))
    by (rewrite Hp1; reflexivity).
  assert (Hq1' : location_queries name s1.2 = S (location_queries name h))
    by (rewrite Hq1, Hl1; lia).
  destruct s1 as [p1 h1]; simpl in *.
  destruct (after_locate (locate_uniform name) rest2 d p1 h1 Hf2)
    as [Hp2 Hq2].
  fold s2 in Hp2, Hq2.
  pose proof (locate_uniform_queries d p1 h1 name) as Hl2.
  pose proof (locate_uniform_run d p1 h1 name) as Hr2.
  rewrite Hv1, vars_get_insert in Hl2, Hr2. simpl in Hl2, Hr2.
  rewrite Hr2 in Hp2. simpl in Hp2.
  repeat split; auto.
  rewrite Hq2, Hl2. lia.
Qed.

Lemma locate_attrib_queries (d : Driver) (p : Program.t) (h : History)
    (name : string) :
  location_queries name (locate_attrib name d (p, h)).2.2
  = (location_queries name h
     + if is_nullish (vars_get (Program.vars p) name) then 1 else 0)%nat.
Proof.
  rewrite locate_attrib_run.
  destruct (vars_get (Program.vars p) name); simpl; try lia.
  unfold location_queries; rewrite count_calls_app; simpl;
    rewrite String.eqb_refl; lia.
Qed.

(** Memoization over two [uniform] calls. *)
Lemma uniform_memoized (d : Driver) (p : Program.t) (h : History)
    (name : string) (loc : WebGLUniformLocation)
    (value1 value2 : Value) (i1 i2 : option bool)
    (dim1 dim2 : option JSNumber) :
  vars_get (Program.vars p) name = Absent →
  on_getUniformLocation d h (Program.program p) name = Some loc →
  let s1 := (Program.uniform name value1 i1 dim1 d (p, h)).2 in
  let s2 := (Program.uniform name value2 i2 dim2 d s1).2 in
  location_queries name s1.2 = S (location_queries name h)
  ∧ location_queries name s2.2 = S (location_queries name h)
  ∧ Program.vars s1.1 = <[name := UniformLoc loc]> (Program.vars p)
  ∧ s2.1 = s1.1.
Proof.
  intros Habs Hloc. rewrite !uniform_split.
  apply locate_uniform_twice; auto; intros ? ? ?;
    apply dispatch_uniform_frame.
Qed.

(** Memoization over two [matrix] calls. *)
Lemma matrix_memoized (d : Driver) (p : Program.t) (h : History)
    (name : string) (loc : WebGLUniformLocation)
    (matrix1 matrix2 : list number) (transpose1 transpose2 : option bool) :
  vars_get (Program.vars p) name = Absent →
  on_getUniformLocation d h (Program.program p) name = Some loc →
  let s1 := (Program.matrix name matrix1 transpose1 d (p, h)).2 in
  let s2 := (Program.matrix name matrix2 transpose2 d s1).2 in
  location_queries name s1.2 = S (location_queries name h)
  ∧ location_queries name s2.2 = S (location_queries name h)
  ∧ Program.vars s1.1 = <[name := UniformLoc loc]> (Program.vars p)
  ∧ s2.1 = s1.1.
Proof.
  intros Habs Hloc. rewrite !matrix_split.
  apply locate_uniform_twice; auto using dispatch_matrix_frame.
Qed.

(** Memoization over two [attrib] calls: whatever number the resolver
    answers, also the "not found" index, is stored and not asked again. *)
Lemma attrib_memoized (d : Driver) (p : Program.t) (h : History)
    (name : string) (value1 value2 : Buffer.t) (size1 size2 : number)
    (stride1 stride2 : option number) :
  vars_get (Program.vars p) name = Absent →
  let s1 := (Program.attrib name value1 size1 stride1 d (p, h)).2 in
  let s2 := (Program.attrib name value2 size2 stride2 d s1).2 in
  location_queries name s1.2 = S (location_queries name h)
  ∧ location_queries name s2.2 = S (location_queries name h)
  ∧ Program.vars s1.1
    = <[name := AttribLoc
                  (on_getAttribLocation d h (Program.program p) name)]>
        (Program.vars p)
  ∧ s2.1 = s1.1.
Proof.
  intros Habs s1 s2. subst s1 s2. rewrite !attrib_split.
  set (rest1 := bind_attrib name value1 size1 stride1).
  set (rest2 := bind_attrib name value2 size2 stride2).
  set (s1 := ((locate_attrib name ;;; rest1) d (p, h)).2).
  set (s2 := ((locate_attrib name ;;; rest2) d s1).2).
  destruct (after_locate (locate_attrib name) rest1 d p h
              (bind_attrib_frame _ _ _ _)) as [Hp1 Hq1].
  fold s1 in Hp1, Hq1.
  pose proof (locate_attrib_queries d p h name) as Hl1.
  pose proof (locate_attrib_run d p h name) as Hr1.
  rewrite Habs in Hl1, Hr1. simpl in Hl1, Hr1.
  rewrite Hr1 in Hp1. simpl in Hp1.
  assert (Hv1 : Program.vars s1.1
                = <[name := AttribLoc
                              (on_getAttribLocation d h (Program.program p)
                                 name)]> (Program.vars p))
    by (rewrite Hp1; reflexivity).
  assert (Hq1' : location_queries name s1.2 = S (location_queries name h))
    by (rewrite Hq1, Hl1; lia).
  destruct s1 as [p1 h1]; simpl in *.
  destruct (after_locate (locate_attrib name) rest2 d p1 h1
              (bind_attrib_frame _ _ _ _)) as [Hp2 Hq2].
  fold s2 in Hp2, Hq2.
  pose proof (locate_attrib_queries d p1 h1 name) as Hl2.
  pose proof (locate_attrib_run d p1 h1 name) as Hr2.
  rewrite Hv1, vars_get_insert in Hl2, Hr2. simpl in Hl2, Hr2.
  rewrite Hr2 in Hp2. simpl in Hp2.
  repeat split; auto.
  rewrite Hq2, Hl2. lia.
Qed.

(** A uniform that the resolver does not find: the call throws, and the
    table is left as it was, so that a later call asks again. *)
Lemma uniform_not_found (d : Driver) (p : Program.t) (h : History)
    (name : string) (value : Value) (i : option bool) (dim : option JSNumber) :
  vars_get (Program.vars p) name = Absent →
  on_getUniformLocation d h (Program.program p) name = None →
  Program.uniform name value i dim d (p, h)
  = (Throw (Error ("Failed to locate uniform '" +:+ name +:+ "'")),
     (p, h ++ [getUniformLocation (Program.program p) name None])).
Proof.
  intros Habs Hloc. rewrite uniform_split. unfold bind at 1.
  rewrite locate_uniform_run, Habs. simpl. rewrite Hloc. reflexivity.
Qed.

(** A name that every object inherits from [Object.prototype] never reads
    as [undefined], so it is never resolved: no query is made for it and
    the inherited member stands in for the location. *)
Lemma inherited_name_not_resolved (d : Driver) (p : Program.t) (h : History)
    (name : string) :
  name ∈ Object_prototype_members →
  Program.vars p !! name = None →
  vars_get (Program.vars p) name = Inherited name
  ∧ locate_uniform name d (p, h) = (Ok tt, (p, h))
  ∧ locate_attrib name d (p, h) = (Ok tt, (p, h)).
Proof.
  intros Hin Hnone.
  assert (Hget : vars_get (Program.vars p) name = Inherited name).
  { unfold vars_get. rewrite Hnone. by rewrite bool_decide_eq_true_2. }
  split; [exact Hget|].
  rewrite locate_uniform_run, locate_attrib_run, Hget. split; reflexivity.
Qed.

(** C2. At the name [toString], which the table inherits from
    [Object.prototype], two [uniform] calls on a fresh program ask the
    location resolver nothing, although it would resolve the name; they
    store nothing, and pass the inherited member as location. The same
    holds for [attrib] at the name [constructor]. *)
Theorem uniform_inherited_name_never_queried :
  let s1 := (Program.uniform "toString" (VNumber 1) None None
               generous_driver (fresh_program, [])).2 in
  let s2 := (Program.uniform "toString" (VNumber 2) None None
               generous_driver s1).2 in
  let a1 := (Program.attrib "constructor" fresh_buffer 2 None
               generous_driver (fresh_program, [])).2 in
  let a2 := (Program.attrib "constructor" fresh_buffer 2 None
               generous_driver a1).2 in
  on_getUniformLocation generous_driver [] 0%N "toString" = Some 9%N
  ∧ location_queries "toString" s2.2 = 0%nat
  ∧ s2 = (fresh_program,
          [ uniform1f (Inherited "toString") (VNumber 1);
            uniform1f (Inherited "toString") (VNumber 2) ])
  ∧ location_queries "constructor" a2.2 = 0%nat
  ∧ a2.1 = fresh_program.
Proof. vm_compute. repeat split; reflexivity. Qed.

(** ** Entry-point names *)

Lemma length_append (s t : string) :
  String.length (s +:+ t) = (String.length s + String.length t)%nat.
Proof. induction s as [|c s IH]; simpl; [reflexivity|]. by rewrite IH. Qed.

(** Two strings with suffixes of one length are equal only part by part. *)
Lemma append_split (s s' t t' : string) :
  String.length t = String.length t' →
  s +:+ t = s' +:+ t' → s = s' ∧ t = t'.
Proof.
  intros Hlen. revert s'.
  induction s as [|c s IH]; intros [|c' s'] H.
  - auto.
  - apply (f_equal String.length) in H.
    rewrite !length_append in H. simpl in H. lia.
  - apply (f_equal String.length) in H.
    rewrite !length_append in H. simpl in H. lia.
  - injection H as -> H. destruct (IH _ H) as [-> ->]. auto.
Qed.

Lemma string_to_number_to_string (n : number) :
  string_to_number (number_to_string n) = Some n.
Proof.
  unfold string_to_number, number_to_string.
  rewrite NilZero.isi.
  - simpl. by rewrite DecimalZ.of_to.
  - destruct n; simpl; try discriminate.
    intros [= H]. by apply DecimalPos.Unsigned.to_uint_nonnil in H.
  - destruct n; simpl; try discriminate.
    intros [= H]. by apply DecimalPos.Unsigned.to_uint_nonnil in H.
Qed.

Lemma number_to_string_inj (n m : number) :
  number_to_string n = number_to_string m → n = m.
Proof.
  intros H. apply (f_equal string_to_number) in H.
  rewrite !string_to_number_to_string in H. congruence.
Qed.

(** A numeral is at least one character long. *)
Lemma number_to_string_length (n : number) :
  (1 ≤ String.length (number_to_string n))%nat.
Proof.
  destruct (number_to_string n) eqn:E; simpl; [|lia].
  pose proof (string_to_number_to_string n) as H. rewrite E in H.
  discriminate.
Qed.

(** From [s +:+ suffix = literal], read [s] off the literal. *)
Ltac cut_suffix H Hlen :=
  change (String.append "" ?x) with x in H;
  match type of H with
  | ?s +:+ ?suf = ?lit =>
      apply (append_split s (front 2 lit) suf (back 2 lit)) in H;
      [ destruct H as [H _] | exact Hlen ]
  end.

(** From [number_to_string n = literal], read [n] off the literal. *)
Ltac read_number H :=
  apply (f_equal string_to_number) in H;
  rewrite string_to_number_to_string in H;
  vm_compute in H; try discriminate H; injection H as H.

(** The concatenated name of a vector entry point is a member of the
    context exactly for the sizes 1 to 4, and is then the entry of the
    table. *)
Lemma vector_method_lookup (n : Z) (integer : bool) :
  let method :=
    "uniform" +:+ number_to_string n
    +:+ (if integer then "i" else "f") +:+ "v" in
  match vector_entry n integer with
  | Some entry => entry = method ∧ method ∈ context_methods
  | None => method ∉ context_methods
  end.
Proof.
  intros method.
  destruct (vector_entry n integer) as [entry|] eqn:E.
  - unfold vector_entry in E.
    destruct n as [|[[[]|[]|]|[[]|[]|]|]|]; try discriminate E;
      destruct integer; injection E as <-; subst method;
      (split; [reflexivity|]); unfold context_methods;
      rewrite !elem_of_cons; tauto.
  - intros Hin. subst method.
    assert (Hname : ∃ suf, String.length suf = 2%nat
                    ∧ "uniform" +:+ number_to_string n +:+ suf
                      ∈ context_methods).
    { destruct integer; eexists; (split; [|exact Hin]); reflexivity. }
    clear Hin. destruct Hname as (suf & Hlen & Hin).
    unfold context_methods in Hin. rewrite !elem_of_cons in Hin.
    rewrite elem_of_nil in Hin.
    repeat (destruct Hin as [Hin|Hin]); try contradiction;
      simpl in Hin; injection Hin as Hin; cut_suffix Hin Hlen;
      read_number Hin; subst n; discriminate E.
Qed.

(** ** Program.uniform: dispatch on the value *)

Lemma mentions_append (c : Ascii.ascii) (s t : string) :
  mentions c (s +:+ t) = mentions c s || mentions c t.
Proof.
  induction s as [|c' s IH]; simpl; [reflexivity|].
  by rewrite IH, orb_assoc.
Qed.

(** No member of the context has a point in its name. *)
Lemma context_methods_no_point (method : string) :
  method ∈ context_methods → mentions "."%char method = false.
Proof.
  unfold context_methods. rewrite !elem_of_cons, elem_of_nil.
  intros H. repeat (destruct H as [->|H]); try reflexivity. contradiction.
Qed.

(** The name [Program.uniform] concatenates is a member of the context
    exactly when the size printed into it is an integer from 1 to 4, and is
    then the entry of the table: a fraction, an infinity, [NaN] and
    [undefined] print into names the context does not have. *)
Lemma sized_method_lookup (size : option JSNumber) (integer : bool) :
  let method :=
    "uniform" +:+ JSNumber_to_string size
    +:+ (if integer then "i" else "f") +:+ "v" in
  match sized_entry size integer with
  | Some entry => entry = method ∧ method ∈ context_methods
  | None => method ∉ context_methods
  end.
Proof.
  destruct size as [[n|f|negative|]|]; cbn [sized_entry JSNumber_to_string].
  - exact (vector_method_lookup n integer).
  - intros Hin. apply context_methods_no_point in Hin.
    rewrite (mentions_append _ "uniform"), !(mentions_append _ _ (_ +:+ "v")),
      (mentions_append _ _ ".?") in Hin.
    change (mentions "."%char ".?") with true in Hin.
    rewrite orb_true_r in Hin. cbn in Hin. discriminate Hin.
  - unfold context_methods. rewrite !elem_of_cons, elem_of_nil. intros Hin.
    destruct negative, integer;
      repeat (destruct Hin as [Hin|Hin]); try discriminate Hin; contradiction.
  - unfold context_methods. rewrite !elem_of_cons, elem_of_nil. intros Hin.
    destruct integer;
      repeat (destruct Hin as [Hin|Hin]); try discriminate Hin; contradiction.
  - unfold context_methods. rewrite !elem_of_cons, elem_of_nil. intros Hin.
    destruct integer;
      repeat (destruct Hin as [Hin|Hin]); try discriminate Hin; contradiction.
Qed.

Lemma dispatch_uniform_run (d : Driver) (p : Program.t) (h : History)
    (name : string) (value : Value) (i : option bool)
    (dim : option JSNumber) :
  dispatch_uniform name value i dim d (p, h) =
  let v := vars_get (Program.vars p) name in
  if isArray value then
    match sized_entry (vector_size dim value) (truthy_bool i) with
    | Some entry => (Ok tt, (p, h ++ [uniform_vector entry v value]))
    | None => (Throw TypeError, (p, h))
    end
  else
    match value with
    | VNumber _ | VBoolean _ =>
        (Ok tt,
         (p, h ++ [if truthy_bool i then uniform1i v value
                   else uniform1f v value]))
    | _ =>
        (Throw (Error ("Invalid uniform value: " +:+ ToString value)), (p, h))
    end.
Proof.
  unfold dispatch_uniform, bind, get_this. cbn [fst snd].
  destruct (isArray value) eqn:Harr.
  - change (if truthy_number dim then dim else Value_length value)
      with (vector_size dim value).
    pose proof (sized_method_lookup (vector_size dim value)
                  (truthy_bool i)) as Hlook.
    cbv zeta in Hlook. unfold invoke.
    destruct (sized_entry (vector_size dim value) (truthy_bool i))
      as [entry|].
    + destruct Hlook as [-> Hin]. rewrite bool_decide_eq_true_2 by done.
      reflexivity.
    + rewrite bool_decide_eq_false_2 by done. reflexivity.
  - destruct value; try reflexivity; destruct (truthy_bool i); reflexivity.
Qed.




(** ** Program.matrix: dispatch on the length *)

(** The concatenated name of a matrix entry point is a member of the
    context exactly when the length is the square of 2, 3 or 4. *)
Lemma matrix_method_lookup (r : Root) :
  let method := "uniformMatrix" +:+ Root_to_string r +:+ "fv" in
  match r with
  | Whole k =>
      match matrix_entry k with
      | Some entry => entry = method ∧ method ∈ context_methods
      | None => method ∉ context_methods
      end
  | Fractional _ => method ∉ context_methods
  end.
Proof.
  intros method.
  assert (Hinv : method ∈ context_methods →
                 ∃ k, Root_to_string r = number_to_string k
                      ∧ is_Some (matrix_entry k)).
  { subst method. unfold context_methods. rewrite !elem_of_cons.
    rewrite elem_of_nil. intros Hin.
    repeat (destruct Hin as [Hin|Hin]); try contradiction.
    all: try (exfalso; revert Hin; clear; intros Hin;
              apply (f_equal (λ s, String.get 7 s)) in Hin;
              discriminate Hin).
    all: injection Hin as Hin; cut_suffix Hin (eq_refl 2%nat).
    - exists 2. split; [exact Hin|]. by eexists.
    - exists 3. split; [exact Hin|]. by eexists.
    - exists 4. split; [exact Hin|]. by eexists. }
  destruct r as [k|f]; simpl in *.
  - destruct (matrix_entry k) as [entry|] eqn:E.
    + unfold matrix_entry in E.
      destruct k as [|[[[]|[]|]|[[]|[]|]|]|]; try discriminate E;
        injection E as <-; subst method;
        (split; [reflexivity|]); unfold context_methods;
        rewrite !elem_of_cons; tauto.
    + intros Hin. destruct (Hinv Hin) as (k' & Hk & [e He]).
      apply number_to_string_inj in Hk. subst k'. congruence.
  - intros Hin. destruct (Hinv Hin) as (k' & Hk & [e He]).
    unfold matrix_entry in He.
    destruct k' as [|[[[]|[]|]|[[]|[]|]|]|]; try discriminate He;
      apply (f_equal String.length) in Hk;
      rewrite length_append in Hk; simpl in Hk;
      pose proof (number_to_string_length f); lia.
Qed.

Lemma dispatch_matrix_run (d : Driver) (p : Program.t) (h : History)
    (name : string) (matrix : list number) (transpose : option bool) :
  let n := Z.of_nat (length matrix) in
  dispatch_matrix name matrix transpose d (p, h) =
  match (if (Z.sqrt n * Z.sqrt n =? n)%Z then matrix_entry (Z.sqrt n)
         else None) with
  | Some entry =>
      (Ok tt,
       (p, h ++ [uniform_matrix entry (vars_get (Program.vars p) name)
                   (truthy_bool transpose) matrix]))
  | None => (Throw TypeError, (p, h))
  end.
Proof.
  intros n. unfold dispatch_matrix, bind, get_this, invoke. cbn [fst snd].
  fold n.
  pose proof (matrix_method_lookup (Math_sqrt n)) as Hlook.
  cbv zeta in Hlook. unfold Math_sqrt in *.
  destruct (Z.sqrt n * Z.sqrt n =? n)%Z.
  - destruct (matrix_entry (Z.sqrt n)) as [entry|].
    + destruct Hlook as [-> Hin]. rewrite bool_decide_eq_true_2 by done.
      reflexivity.
    + rewrite bool_decide_eq_false_2 by done. reflexivity.
  - rewrite bool_decide_eq_false_2 by done. reflexivity.
Qed.

(** C6. For every [matrix] call whose location resolves, the entry point
    invoked is the square-matrix one whose dimension is the integer square
    root of the number of elements, when that number is the square of 2, 3
    or 4: four elements invoke the 2x2 entry point, nine the 3x3 one,
    sixteen the 4x4 one.  For any other number of elements no entry point
    is invoked and the call ends in a [TypeError]. *)
Theorem matrix_dispatch (d : Driver) (p : Program.t) (h : History)
    (name : string) (matrix : list number) (transpose : option bool) :
  let located := locate_uniform name d (p, h) in
  located.1 = Ok tt →
  let p' := located.2.1 in
  let h' := located.2.2 in
  let n := Z.of_nat (length matrix) in
  Program.matrix name matrix transpose d (p, h) =
  match (if (Z.sqrt n * Z.sqrt n =? n)%Z then matrix_entry (Z.sqrt n)
         else None) with
  | Some entry =>
      (Ok tt,
       (p', h' ++ [uniform_matrix entry (vars_get (Program.vars p') name)
                     (truthy_bool transpose) matrix]))
  | None => (Throw TypeError, (p', h'))
  end.
Proof.
  intros located Hok p' h' n. subst p' h'.
  rewrite matrix_split.
  change ((locate_uniform name ;;; dispatch_matrix name matrix transpose)
            d (p, h))
    with (match located with
          | (Ok _, s') => dispatch_matrix name matrix transpose d s'
          | (Throw e, s') => (Throw e, s')
          end).
  destruct located as [[[]|e] [p' h']]; [|discriminate Hok].
  cbn [fst snd]. apply dispatch_matrix_run.
Qed.

Lemma matrix_dispatch_witness :
  (locate_uniform "tint" demo_driver (fresh_program, [])).1 = Ok tt
  ∧ (Program.matrix "tint" [1; 0; 0; 1] None demo_driver
       (fresh_program, [])).2.2
    = [ getUniformLocation 0%N "tint" (Some 7%N);
        uniform_matrix "uniformMatrix2fv" (Own (UniformLoc 7%N)) false
          [1; 0; 0; 1] ]
  ∧ (Program.matrix "tint" [1; 0; 0; 0; 1; 0; 0; 0; 1] (Some true)
       demo_driver (fresh_program, [])).2.2
    = [ getUniformLocation 0%N "tint" (Some 7%N);
        uniform_matrix "uniformMatrix3fv" (Own (UniformLoc 7%N)) true
          [1; 0; 0; 0; 1; 0; 0; 0; 1] ]
  ∧ (Program.matrix "tint"
       [1; 0; 0; 0; 0; 1; 0; 0; 0; 0; 1; 0; 0; 0; 0; 1] None
       demo_driver (fresh_program, [])).2.2
    = [ getUniformLocation 0%N "tint" (Some 7%N);
        uniform_matrix "uniformMatrix4fv" (Own (UniformLoc 7%N)) false
          [1; 0; 0; 0; 0; 1; 0; 0; 0; 0; 1; 0; 0; 0; 0; 1] ]
  ∧ (Program.matrix "tint" [1; 2; 3; 4; 5] None demo_driver
       (fresh_program, [])).1
    = Throw TypeError.
Proof.
  pose proof (matrix_dispatch demo_driver fresh_program [] "tint"
                [1; 0; 0; 1] None eq_refl) as H2.
  pose proof (matrix_dispatch demo_driver fresh_program [] "tint"
                [1; 0; 0; 0; 1; 0; 0; 0; 1] (Some true) eq_refl) as H3.
  pose proof (matrix_dispatch demo_driver fresh_program [] "tint"
                [1; 0; 0; 0; 0; 1; 0; 0; 0; 0; 1; 0; 0; 0; 0; 1] None
                eq_refl) as H4.
  pose proof (matrix_dispatch demo_driver fresh_program [] "tint"
                [1; 2; 3; 4; 5] None eq_refl) as H5.
  split; [reflexivity|].
  split; [exact (f_equal (λ r, r.2.2) H2)|].
  split; [exact (f_equal (λ r, r.2.2) H3)|].
  split; [exact (f_equal (λ r, r.2.2) H4)|].
  exact (f_equal (λ r, r.1) H5).
Defined.

(** ** Framebuffer *)

(** C9. With the framebuffer argument left out the constructor asks the
    context for a fresh framebuffer and wraps the answer; with the argument
    supplied, be it a handle, [null] or [undefined], it asks nothing and
    wraps the value of the parameter.  Leaving the argument out and passing
    [null] give the parameter the same value, yet behave differently: what
    decides is the number of arguments. *)
Theorem Framebuffer_new_by_argument_count (d : Driver) (h : History)
    (fb : option WebGLFramebuffer) :
  Framebuffer.new Omitted d (tt, h)
  = (Ok {| Framebuffer.framebuffer := on_createFramebuffer d h;
           Framebuffer.renderbuffer := None |},
     (tt, h ++ [createFramebuffer (on_createFramebuffer d h)]))
  ∧ Framebuffer.new (Passed fb) d (tt, h)
    = (Ok {| Framebuffer.framebuffer := fb;
             Framebuffer.renderbuffer := None |}, (tt, h))
  ∧ Framebuffer.new PassedUndefined d (tt, h)
    = (Ok {| Framebuffer.framebuffer := None;
             Framebuffer.renderbuffer := None |}, (tt, h))
  ∧ Framebuffer.with_default Omitted
    = Framebuffer.with_default (Passed None).
Proof. repeat split; reflexivity. Qed.

Lemma attachDepth_first (d : Driver) (fb : Framebuffer.t) (h : History)
    (width height : number) :
  Framebuffer.renderbuffer fb = None →
  let bound :=
    h ++ [bindFramebuffer FRAMEBUFFER (Framebuffer.framebuffer fb)] in
  let rb := on_createRenderbuffer d bound in
  Framebuffer.attachDepth width height d (fb, h)
  = (Ok tt,
     ({| Framebuffer.framebuffer := Framebuffer.framebuffer fb;
         Framebuffer.renderbuffer := rb |},
      h ++ [ bindFramebuffer FRAMEBUFFER (Framebuffer.framebuffer fb);
             createRenderbuffer rb;
             renderbufferStorage RENDERBUFFER DEPTH_COMPONENT16
               width height;
             framebufferRenderbuffer FRAMEBUFFER DEPTH_ATTACHMENT
               RENDERBUFFER rb ])).
Proof.
  intros Hnone bound rb.
  unfold Framebuffer.attachDepth, Framebuffer.bind_. run_M.
  rewrite Hnone. simpl. rewrite <- !app_assoc. reflexivity.
Qed.

Lemma attachDepth_later (d : Driver) (fb : Framebuffer.t) (h : History)
    (width height : number) :
  is_Some (Framebuffer.renderbuffer fb) →
  Framebuffer.attachDepth width height d (fb, h)
  = (Ok tt,
     (fb, h ++ [bindFramebuffer FRAMEBUFFER (Framebuffer.framebuffer fb)])).
Proof.
  intros [rb Hrb].
  unfold Framebuffer.attachDepth, Framebuffer.bind_. run_M.
  rewrite Hrb. reflexivity.
Qed.

(** A second [attachDepth] is no no-op: it puts a call on the context, the
    re-binding of the framebuffer, which changes the render target when
    another framebuffer was bound in between. *)
Lemma attachDepth_second_call_binds :
  let s1 := (Framebuffer.attachDepth 64 64 demo_driver
               (plain_framebuffer, [])).2 in
  let between := s1.2 ++ [bindFramebuffer FRAMEBUFFER None] in
  let run2 := Framebuffer.attachDepth 128 128 demo_driver (s1.1, between) in
  run2.2.2 = between ++ [bindFramebuffer FRAMEBUFFER (Some 0%N)]
  ∧ run2.2 ≠ (s1.1, between).
Proof. vm_compute. split; [reflexivity|discriminate]. Qed.

(** C4, amended. The first [attachDepth] binds the framebuffer, creates a
    renderbuffer, allocates its depth storage in the given size and
    attaches it.  Once that renderbuffer exists, every later call, with
    whatever width and height and after whatever other calls, only binds
    the framebuffer again: it creates, allocates and attaches nothing, and
    the wrapper keeps the renderbuffer of the first call. *)
Theorem attachDepth_once (d : Driver) (fb : Framebuffer.t) (h : History)
    (width height : number) (rb : WebGLRenderbuffer) :
  Framebuffer.renderbuffer fb = None →
  on_createRenderbuffer d
    (h ++ [bindFramebuffer FRAMEBUFFER (Framebuffer.framebuffer fb)])
  = Some rb →
  let fb1 := {| Framebuffer.framebuffer := Framebuffer.framebuffer fb;
                Framebuffer.renderbuffer := Some rb |} in
  Framebuffer.attachDepth width height d (fb, h)
  = (Ok tt,
     (fb1,
      h ++ [ bindFramebuffer FRAMEBUFFER (Framebuffer.framebuffer fb);
             createRenderbuffer (Some rb);
             renderbufferStorage RENDERBUFFER DEPTH_COMPONENT16
               width height;
             framebufferRenderbuffer FRAMEBUFFER DEPTH_ATTACHMENT
               RENDERBUFFER (Some rb) ]))
  ∧ ∀ (later : History) (width' height' : number),
      Framebuffer.attachDepth width' height' d (fb1, later)
      = (Ok tt,
         (fb1,
          later
          ++ [bindFramebuffer FRAMEBUFFER (Framebuffer.framebuffer fb)])).
Proof.
  intros Hnone Hrb fb1. split.
  - rewrite attachDepth_first by exact Hnone. cbv zeta. rewrite Hrb.
    reflexivity.
  - intros later width' height'.
    rewrite attachDepth_later by (simpl; eauto). reflexivity.
Qed.

Lemma attachDepth_once_witness :
  let fb1 := {| Framebuffer.framebuffer := Some 0%N;
                Framebuffer.renderbuffer := Some 1%N |} in
  Framebuffer.attachDepth 64 64 demo_driver (plain_framebuffer, [])
  = (Ok tt,
     (fb1,
      [ bindFramebuffer FRAMEBUFFER (Some 0%N);
        createRenderbuffer (Some 1%N);
        renderbufferStorage RENDERBUFFER DEPTH_COMPONENT16 64 64;
        framebufferRenderbuffer FRAMEBUFFER DEPTH_ATTACHMENT RENDERBUFFER
          (Some 1%N) ]))
  ∧ Framebuffer.attachDepth 128 128 demo_driver (fb1, [])
    = (Ok tt, (fb1, [bindFramebuffer FRAMEBUFFER (Some 0%N)])).
Proof.
  destruct (attachDepth_once demo_driver plain_framebuffer [] 64 64 1%N
              eq_refl eq_refl) as [Hfirst Hlater].
  split; [exact Hfirst|]. exact (Hlater [] 128 128).
Defined.

(** ** Igloo: construction and context acquisition *)

Lemma getContext_run {T} (d : Driver) (this : T) (h : History)
    (element : Canvas) (options : option (gmap string Value))
    (noerror : option bool) :
  let reply := on_getContext d h element "webgl2" (default ∅ options) in
  let asked :=
    h ++ [canvas_getContext element "webgl2" (default ∅ options) reply] in
  Igloo.getContext element options noerror d (this, h) =
  match context_of_reply reply with
  | Some ctx => (Ok (Some ctx), (this, asked))
  | None =>
      if truthy_bool noerror then (Ok None, (this, asked))
      else (Throw (Error "Could not create WebGL context."), (this, asked))
  end.
Proof.
  intros reply asked. unfold Igloo.getContext. run_M. fold reply.
  destruct reply as [|[ctx|]]; simpl; try reflexivity;
    destruct (truthy_bool noerror); reflexivity.
Qed.

Lemma Igloo_new_run (d : Driver) (h : History) (element : Canvas)
    (options : option (gmap string Value)) :
  let reply := on_getContext d h element "webgl2" (default ∅ options) in
  let asked :=
    h ++ [canvas_getContext element "webgl2" (default ∅ options) reply] in
  Igloo.new (inl element) options d (tt, h) =
  match context_of_reply reply with
  | Some ctx =>
      (Ok {| Igloo.gl := Igloo.OfContext ctx;
             Igloo.canvas := element;
             Igloo.defaultFramebuffer :=
               {| Framebuffer.framebuffer := None;
                  Framebuffer.renderbuffer := None |} |},
       (tt, asked))
  | None => (Throw (Error "Could not create WebGL context."), (tt, asked))
  end.
Proof.
  intros reply asked. unfold Igloo.new.
  unfold bind at 1. unfold bind at 1.
  rewrite getContext_run. fold reply. fold asked.
  destruct (context_of_reply reply) as [ctx|]; reflexivity.
Qed.

(** Constructed on a canvas that yields no context, with context attributes
    that ask for the "no error" mode, the facade still fails: the
    constructor has no way to pass that mode on. *)
Lemma Igloo_new_ignores_noerror :
  Igloo.new (inl 5%N) (Some no_error_options) headless_driver (tt, [])
  = (Throw (Error "Could not create WebGL context."),
     (tt, [canvas_getContext 5%N "webgl2" no_error_options (Returns None)])).
Proof. reflexivity. Qed.

(** C5, amended. When the facade is constructed from a canvas and no
    rendering context is obtainable, whether the canvas answers [null] or
    raises, construction fails with the context error, whatever the
    options.  The "no error" mode exists on the static [getContext] only:
    there, with the flag set, [null] is returned instead of failing, and
    without it the same error is thrown. *)
Theorem Igloo_new_without_context (d : Driver) (h : History)
    (element : Canvas) (options : option (gmap string Value)) :
  let reply := on_getContext d h element "webgl2" (default ∅ options) in
  let asked :=
    h ++ [canvas_getContext element "webgl2" (default ∅ options) reply] in
  context_of_reply reply = None →
  Igloo.new (inl element) options d (tt, h)
  = (Throw (Error "Could not create WebGL context."), (tt, asked))
  ∧ Igloo.getContext element options (Some true) d (tt, h)
    = (Ok None, (tt, asked))
  ∧ ∀ noerror, truthy_bool noerror = false →
      Igloo.getContext element options noerror d (tt, h)
      = (Throw (Error "Could not create WebGL context."), (tt, asked)).
Proof.
  intros reply asked Hnone. repeat split.
  - rewrite Igloo_new_run. fold reply. rewrite Hnone. reflexivity.
  - rewrite getContext_run. fold reply. rewrite Hnone. reflexivity.
  - intros noerror Hfalse. rewrite getContext_run. fold reply.
    rewrite Hnone, Hfalse. reflexivity.
Qed.

Lemma Igloo_new_without_context_witness :
  Igloo.new (inl 5%N) None headless_driver (tt, [])
  = (Throw (Error "Could not create WebGL context."),
     (tt, [canvas_getContext 5%N "webgl2" ∅ (Returns None)]))
  ∧ Igloo.new (inl 5%N) (Some no_error_options) raising_driver (tt, [])
    = (Throw (Error "Could not create WebGL context."),
       (tt, [canvas_getContext 5%N "webgl2" no_error_options Raises]))
  ∧ Igloo.getContext 5%N None (Some true) headless_driver (tt, [])
    = (Ok None, (tt, [canvas_getContext 5%N "webgl2" ∅ (Returns None)])).
Proof.
  destruct (Igloo_new_without_context headless_driver [] 5%N None eq_refl)
    as (Hnew & Hquiet & _).
  destruct (Igloo_new_without_context raising_driver [] 5%N
              (Some no_error_options) eq_refl) as (Hraise & _ & _).
  split; [exact Hnew|]. split; [exact Hraise|exact Hquiet].
Defined.

(** C10. Given a canvas, the constructor obtains the context as the static
    [getContext] does without the "no error" flag: construction throws the
    context error, or it proceeds with the context the canvas returned,
    which is not [null].  So the field [gl] of a constructed facade holds a
    context and never the canvas element: the branch that would keep the
    canvas is not reachable. *)
Theorem Igloo_new_from_canvas (d : Driver) (h : History) (element : Canvas)
    (options : option (gmap string Value)) :
  let run := Igloo.new (inl element) options d (tt, h) in
  (Igloo.getContext element options None d (tt, h)).2 = run.2
  ∧ (run.1 = Throw (Error "Could not create WebGL context.")
     ∨ ∃ ctx,
         (Igloo.getContext element options None d (tt, h)).1
         = Ok (Some ctx)
         ∧ run.1
           = Ok {| Igloo.gl := Igloo.OfContext ctx;
                   Igloo.canvas := element;
                   Igloo.defaultFramebuffer :=
                     {| Framebuffer.framebuffer := None;
                        Framebuffer.renderbuffer := None |} |})
  ∧ ∀ igloo, run.1 = Ok igloo → ∀ c, Igloo.gl igloo ≠ Igloo.OfCanvas c.
Proof.
  intros run. subst run. rewrite Igloo_new_run, getContext_run.
  destruct (context_of_reply _) as [ctx|]; simpl.
  - split; [reflexivity|]. split; [right; eauto|].
    intros igloo [= <-] c. discriminate.
  - split; [reflexivity|]. split; [by left|]. intros igloo [=].
Qed.

Lemma Igloo_new_from_canvas_witness :
  (Igloo.new (inl 5%N) None demo_driver (tt, [])).1
  = Ok {| Igloo.gl := Igloo.OfContext 1%N; Igloo.canvas := 5%N;
          Igloo.defaultFramebuffer :=
            {| Framebuffer.framebuffer := None;
               Framebuffer.renderbuffer := None |} |}
  ∧ Igloo.gl
      {| Igloo.gl := Igloo.OfContext 1%N; Igloo.canvas := 5%N;
         Igloo.defaultFramebuffer :=
           {| Framebuffer.framebuffer := None;
              Framebuffer.renderbuffer := None |} |}
    ≠ Igloo.OfCanvas 5%N.
Proof.
  destruct (Igloo_new_from_canvas demo_driver [] 5%N None) as (_ & _ & H).
  split; [reflexivity|]. exact (H _ eq_refl 5%N).
Defined.

(** ** Program: construction *)

Lemma makeShader_run {T} (d : Driver) (this : T) (h : History) (type : Z)
    (source : string) :
  Program.makeShader type source d (this, h) =
  match on_createShader d h type with
  | None =>
      (Throw (Error "Failed to create shader"),
       (this, h ++ [createShader type None]))
  | Some sh =>
      let h3 := h ++ [ createShader type (Some sh); shaderSource sh source;
                       compileShader sh ] in
      let status := on_getShaderParameter d h3 sh COMPILE_STATUS in
      let h4 := h3 ++ [getShaderParameter sh COMPILE_STATUS status] in
      if status then (Ok sh, (this, h4))
      else
        let log := on_getShaderInfoLog d h4 sh in
        (Throw (Error (or_default log "Failed to compile shader")),
         (this, h4 ++ [getShaderInfoLog sh log]))
  end.
Proof.
  unfold Program.makeShader. run_M.
  destruct (on_createShader d h type) as [sh|]; simpl; [|reflexivity].
  rewrite <- !app_assoc. simpl.
  destruct (on_getShaderParameter d _ sh COMPILE_STATUS); simpl;
    rewrite <- ?app_assoc; reflexivity.
Qed.

Lemma or_default_carries (s fallback : string) :
  s ≠ "" → or_default (Some s) fallback = s.
Proof.
  intros Hs. unfold or_default.
  destruct (String.eqb_spec s ""); [contradiction|reflexivity].
Qed.

(** With an empty diagnostic log the error carries a fixed message, not
    the log; so it does when linking fails. *)
Lemma Program_new_empty_log :
  let run := Program.new "#error" "void main(){}" silent_driver (tt, []) in
  let linked := Program.new "void main(){}" "void main(){}" silent_driver
                  (tt, []) in
  last run.2.2 = Some (getShaderInfoLog 1%N (Some ""))
  ∧ run.1 = Throw (Error "Failed to compile shader")
  ∧ run.1 ≠ Throw (Error "")
  ∧ last linked.2.2 = Some (getProgramInfoLog 0%N (Some ""))
  ∧ linked.1 = Throw (Error "Failed to link program")
  ∧ linked.1 ≠ Throw (Error "").
Proof. vm_compute. repeat split; try reflexivity; discriminate. Qed.

(** C7, amended. Let the context create the program [p] and the vertex
    shader [vs].  If it reports the compile status of [vs] as false, the
    constructor reads the diagnostic log of [vs] as its last call and
    throws an error carrying that log, or the fixed message [Failed to
    compile shader] when the log is null or empty; it has then made no
    call for the fragment shader and none to link.  If [vs] compiles and
    the compile status of the fragment shader [fs] is false, the same
    holds with the log of [fs]; no link was attempted.  If both compile
    and the link status is false, the constructor reads the diagnostic log
    of [p] as its last call and throws an error carrying that log, or the
    fixed message [Failed to link program] when the log is null or
    empty. *)
Theorem Program_new_errors (d : Driver) (h : History)
    (vertex fragment : string) (p : WebGLProgram) (vs : WebGLShader) :
  let run := Program.new vertex fragment d (tt, h) in
  let h1 :=
    h ++ [ createProgram (Some p); createShader VERTEX_SHADER (Some vs);
           shaderSource vs vertex; compileShader vs ] in
  on_createProgram d h = Some p →
  on_createShader d (h ++ [createProgram (Some p)]) VERTEX_SHADER
  = Some vs →
  (on_getShaderParameter d h1 vs COMPILE_STATUS = false →
   let h2 := h1 ++ [getShaderParameter vs COMPILE_STATUS false] in
   let log := on_getShaderInfoLog d h2 vs in
   run = (Throw (Error (or_default log "Failed to compile shader")),
          (tt, h2 ++ [getShaderInfoLog vs log])))
  ∧ (on_getShaderParameter d h1 vs COMPILE_STATUS = true →
     ∀ fs : WebGLShader,
       let h2 :=
         h1 ++ [ getShaderParameter vs COMPILE_STATUS true;
                 attachShader p vs ] in
       let h3 :=
         h2 ++ [ createShader FRAGMENT_SHADER (Some fs);
                 shaderSource fs fragment; compileShader fs ] in
       on_createShader d h2 FRAGMENT_SHADER = Some fs →
       (on_getShaderParameter d h3 fs COMPILE_STATUS = false →
        let h4 := h3 ++ [getShaderParameter fs COMPILE_STATUS false] in
        let log := on_getShaderInfoLog d h4 fs in
        run = (Throw (Error (or_default log "Failed to compile shader")),
               (tt, h4 ++ [getShaderInfoLog fs log])))
       ∧ (on_getShaderParameter d h3 fs COMPILE_STATUS = true →
          let h4 :=
            h3 ++ [ getShaderParameter fs COMPILE_STATUS true;
                    attachShader p fs; linkProgram p ] in
          on_getProgramParameter d h4 p LINK_STATUS = false →
          let h5 := h4 ++ [getProgramParameter p LINK_STATUS false] in
          let log := on_getProgramInfoLog d h5 p in
          run = (Throw (Error (or_default log "Failed to link program")),
                 (tt, h5 ++ [getProgramInfoLog p log])))).
Proof.
  intros run h1 Hp Hvs. subst run h1.
  unfold Program.new, bind, gl_ask, gl_do, throw, ret. cbn [fst snd].
  rewrite Hp, makeShader_run. cbv zeta. rewrite Hvs.
  rewrite <- ?app_assoc. cbn [app].
  split.
  - intros ->. rewrite <- ?app_assoc. reflexivity.
  - intros -> fs Hfs.
    cbn [fst snd]. rewrite makeShader_run. cbv zeta.
    rewrite <- ?app_assoc. cbn [app]. rewrite Hfs.
    rewrite <- ?app_assoc. cbn [app].
    split.
    + intros ->. rewrite <- ?app_assoc. reflexivity.
    + intros -> Hlink.
      cbn [fst snd]. rewrite <- ?app_assoc. cbn [app].
      rewrite Hlink. cbn [negb fst snd].
      rewrite <- ?app_assoc. reflexivity.
Qed.

Lemma Program_new_errors_witness :
  (Program.new "#error" "void main(){}" demo_driver (tt, [])
   = (Throw (Error "ERROR: 0:1: unexpected token"),
      (tt,
       [ createProgram (Some 0%N); createShader VERTEX_SHADER (Some 1%N);
         shaderSource 1%N "#error"; compileShader 1%N;
         getShaderParameter 1%N COMPILE_STATUS false;
         getShaderInfoLog 1%N (Some "ERROR: 0:1: unexpected token") ])))
  ∧ (Program.new "void main(){}" "#error" demo_driver (tt, [])).1
    = Throw (Error "ERROR: 0:1: unexpected token")
  ∧ (Program.new "void main(){}" "void main(){}" unlinkable_driver
       (tt, [])).1
    = Throw (Error "ERROR: varying mismatch")
  ∧ (Program.new "void main(){}" "void main(){}" silent_driver (tt, [])).1
    = Throw (Error "Failed to link program").
Proof.
  destruct (Program_new_errors demo_driver [] "#error" "void main(){}"
              0%N 1%N eq_refl eq_refl) as [Hvertex _].
  destruct (Program_new_errors demo_driver [] "void main(){}" "#error"
              0%N 1%N eq_refl eq_refl) as [_ Hfragment].
  destruct (Program_new_errors unlinkable_driver [] "void main(){}"
              "void main(){}" 0%N 1%N eq_refl eq_refl) as [_ Hlink].
  destruct (Program_new_errors silent_driver [] "void main(){}"
              "void main(){}" 0%N 1%N eq_refl eq_refl) as [_ Hsilent].
  split; [exact (Hvertex eq_refl)|].
  split.
  { destruct (Hfragment eq_refl 6%N eq_refl) as [H _].
    exact (f_equal (λ r, r.1) (H eq_refl)). }
  split.
  { destruct (Hlink eq_refl 6%N eq_refl) as [_ H].
    exact (f_equal (λ r, r.1) (H eq_refl eq_refl)). }
  destruct (Hsilent eq_refl 6%N eq_refl) as [_ H].
  exact (f_equal (λ r, r.1) (H eq_refl eq_refl)).
Defined.

(** With a diagnostic log that is not empty, the error carries it. *)
Lemma Program_new_carries_log :
  (Program.new "void main(){}" "#error" demo_driver (tt, [])).1
  = Throw (Error "ERROR: 0:1: unexpected token")
  ∧ (Program.new "void main(){}" "void main(){}" unlinkable_driver
       (tt, [])).1
    = Throw (Error "ERROR: varying mismatch").
Proof. split; reflexivity. Qed.

(** ** Program.disable *)

Lemma disable_loop (d : Driver) (p : Program.t) (h : History)
    (entries : list (string * Location)) :
  (∀ name l, (name, l) ∈ entries → Program.vars p !! name = Some l) →
  for_each (entries.*1) (λ attrib,
    let location := vars_get (Program.vars p) attrib in
    if hasOwnProperty (Program.vars p) attrib then
      match location with
      | Own (AttribLoc location) => gl_do (disableVertexAttribArray location)
      | _ => ret tt
      end
    else ret tt) d (p, h)
  = (Ok tt,
     (p, h ++ (disableVertexAttribArray <$> attribute_indices entries))).
Proof.
  revert h. induction entries as [|[name l] rest IH]; intros h Hown.
  - simpl. unfold ret. by rewrite app_nil_r.
  - assert (Hl : Program.vars p !! name = Some l)
      by (apply Hown; left).
    cbn [fmap list_fmap fst for_each]. unfold bind at 1.
    unfold hasOwnProperty, vars_get. rewrite Hl.
    rewrite bool_decide_eq_true_2 by eauto.
    assert (Hrest : ∀ name' l', (name', l') ∈ rest
                                → Program.vars p !! name' = Some l')
      by (intros; apply Hown; by right).
    destruct l as [loc|index]; unfold ret, gl_do; cbn [fst snd].
    + unfold hasOwnProperty, vars_get in IH. rewrite IH by exact Hrest.
      reflexivity.
    + unfold hasOwnProperty, vars_get in IH. rewrite IH by exact Hrest.
      rewrite <- app_assoc. reflexivity.
Qed.

(** C8. [disable] calls [disableVertexAttribArray] once for each entry of
    the table that holds a number, an attribute index, and makes no other
    call; it leaves the table, and with it every resolved uniform location,
    as it was.  (The calls come in the order in which the table is
    visited.) *)
Theorem disable_attribs (d : Driver) (p : Program.t) (h : History) :
  Program.disable d (p, h)
  = (Ok tt,
     (p, h ++ (disableVertexAttribArray
                 <$> attribute_indices (map_to_list (Program.vars p)))))
  ∧ ∀ index,
      index ∈ attribute_indices (map_to_list (Program.vars p))
      ↔ ∃ name, Program.vars p !! name = Some (AttribLoc index).
Proof.
  split.
  - unfold Program.disable, bind, get_this. cbn [fst snd].
    unfold for_in_keys. apply disable_loop.
    intros name l Hin. by apply elem_of_map_to_list.
  - intros index. unfold attribute_indices. rewrite list_elem_of_omap.
    split.
    + intros ([name l] & Hin & Hl). apply elem_of_map_to_list in Hin.
      destruct l as [loc|i]; simpl in Hl; [discriminate|].
      injection Hl as ->. eauto.
    + intros (name & Hname). exists (name, AttribLoc index).
      split; [by apply elem_of_map_to_list|reflexivity].
Qed.

Lemma disable_attribs_witness :
  let p := (Program.uniform "tint" (VArray [1; 0; 0]) None None demo_driver
              (Program.attrib "colors" fresh_buffer 3 None demo_driver
                 (Program.attrib "points" fresh_buffer 2 None demo_driver
                    (fresh_program, [])).2).2).2.1 in
  Program.vars p
  = {[ "points" := AttribLoc 0; "colors" := AttribLoc 1;
       "tint" := UniformLoc 7%N ]}
  ∧ (Program.disable demo_driver (p, [])).2.1 = p
  ∧ (Program.disable demo_driver (p, [])).2.2
    ≡ₚ [disableVertexAttribArray 0; disableVertexAttribArray 1].
Proof.
  intros p.
  destruct (disable_attribs demo_driver p []) as [Hrun _].
  split; [by vm_compute|].
  split; [exact (f_equal (λ r, r.2.1) Hrun)|].
  refine (eq_ind_r (λ calls, calls ≡ₚ _) _ (f_equal (λ r, r.2.2) Hrun)).
  vm_compute. apply perm_swap.
Defined.

(** * Further properties *)

(** ** Igloo.isArray *)

Lemma substring_all (s : string) :
  String.substring 0 (String.length s) s = s.
Proof. induction s as [|c s IH]; simpl; [reflexivity|]. by rewrite IH. Qed.

Lemma substring_append (pre suffix : string) :
  String.substring (String.length pre) (String.length suffix)
    (pre +:+ suffix) = suffix.
Proof. induction pre as [|c pre IH]; simpl; [apply substring_all|exact IH]. Qed.

Lemma substring_split (k : nat) (s : string) :
  (k ≤ String.length s)%nat →
  s = String.substring 0 k s
      +:+ String.substring k (String.length s - k) s.
Proof.
  revert s. induction k as [|k IH]; intros s Hk.
  - rewrite Nat.sub_0_r, substring_all. by destruct s.
  - destruct s as [|c s]; simpl in Hk; [lia|].
    change (String c s
            = String c (String.substring 0 k s
                        +:+ String.substring k (String.length s - k) s)).
    f_equal. apply IH. lia.
Qed.

(** [ends_with] is the relation of a string to its suffixes. *)
Lemma ends_with_spec (suffix name : string) :
  ends_with suffix name = true ↔ ∃ pre, name = pre +:+ suffix.
Proof.
  unfold ends_with. rewrite andb_true_iff, Nat.leb_le, String.eqb_eq.
  split.
  - intros [Hle Hsub].
    exists (String.substring 0 (String.length name - String.length suffix)
              name).
    pose proof (substring_split
                  (String.length name - String.length suffix) name) as H.
    replace (String.length name
             - (String.length name - String.length suffix))%nat
      with (String.length suffix) in H by lia.
    rewrite Hsub in H. apply H. lia.
  - intros [pre ->]. rewrite length_append. split; [lia|].
    replace (String.length pre + String.length suffix
             - String.length suffix)%nat with (String.length pre) by lia.
    apply substring_append.
Qed.

Lemma append_assoc (s t u : string) : (s +:+ t) +:+ u = s +:+ t +:+ u.
Proof.
  induction s as [|c s IH]; [reflexivity|].
  change (String c ((s +:+ t) +:+ u) = String c (s +:+ t +:+ u)).
  by rewrite IH.
Qed.

(** The class names the pattern of [Igloo.isArray] matches: [Array] or the
    name of a typed array of floats or of integers up to 32 bits, standing
    alone or after a space. *)
Lemma isArray_tag (tag : string) :
  isArray (VObject tag) = true ↔
  ∃ alt, alt ∈ array_prefixes
         ∧ (tag = alt +:+ "Array"
            ∨ ∃ pre, tag = pre +:+ " " +:+ alt +:+ "Array").
Proof.
  unfold isArray, Object_toString. rewrite existsb_exists.
  split.
  - intros (alt & Hin & Hends). exists alt.
    split; [by apply list_elem_of_In|].
    apply ends_with_spec in Hends as [pre H].
    change (" " +:+ alt +:+ "Array]") with (" " +:+ alt +:+ "Array" +:+ "]")
      in H.
    rewrite <- (append_assoc alt "Array" "]") in H.
    change (" " +:+ (alt +:+ "Array") +:+ "]")
      with ((" " +:+ alt +:+ "Array") +:+ "]") in H.
    rewrite <- (append_assoc pre) in H.
    change ("[object " +:+ tag +:+ "]") with (("[object " +:+ tag) +:+ "]")
      in H.
    apply append_split in H as [H _]; [|reflexivity].
    do 7 (destruct pre as [|? pre]; [discriminate H|];
          injection H as _ H).
    destruct pre as [|? pre].
    + injection H as H. by left.
    + injection H as _ H. right. by exists pre.
  - intros (alt & Hin & Htag). exists alt.
    split; [by apply list_elem_of_In|].
    apply ends_with_spec.
    destruct Htag as [->|[pre ->]].
    + exists "[object". by rewrite (append_assoc alt "Array" "]").
    + exists ("[object " +:+ pre). by rewrite !append_assoc.
Qed.

(** X1. [Igloo.isArray] goes by the class name that
    [Object.prototype.toString] reports.  It holds of plain arrays, of the
    typed arrays of floats and of integers up to 32 bits, and of any other
    object whose class name, its [Symbol.toStringTag], is [Array] or the
    name of such a typed array, alone or after a space.  It holds of nothing
    else: not of the two kinds of [BigInt] arrays, nor of numbers,
    booleans, strings, [null] or [undefined]. *)
Theorem isArray_accepts (value : Value) :
  isArray value = true ↔
  (∃ xs, value = VArray xs)
  ∨ (∃ k xs, value = VTyped k xs ∧ k ≠ BigInt64 ∧ k ≠ BigUint64)
  ∨ (∃ tag alt,
       value = VObject tag
       ∧ alt ∈ array_prefixes
       ∧ (tag = alt +:+ "Array"
          ∨ ∃ pre, tag = pre +:+ " " +:+ alt +:+ "Array")).
Proof.
  destruct value as [| |b|n|s|xs|k xs|tag].
  1-5: split; [discriminate|];
       intros [[? [=]]|[(? & ? & [=] & _)|(? & ? & [=] & _)]].
  - split; [eauto|reflexivity].
  - split.
    + intros H. right. left. exists k, xs.
      destruct k; try discriminate H; done.
    + intros [[? [=]]|[(k' & xs' & [= <- <-] & H1 & H2)
                       |(? & ? & [=] & _)]].
      destruct k; done.
  - rewrite isArray_tag. split.
    + intros (alt & Hin & Htag). right. right. by exists tag, alt.
    + intros [[? [=]]|[(? & ? & [=] & _)
                       |(tag' & alt & [= <-] & Hin & Htag)]].
      by exists alt.
Qed.

(** ** Buffers: runs of updates, and the facade's factories *)

(** The two shapes of one [update]. *)
Lemma Buffer_update_run (d : Driver) (b : Buffer.t) (h : History)
    (data : Payload) (usage : option Z) :
  Buffer.update data usage d (b, h) =
  let src := Buffer.to_source data in
  let bound := h ++ [bindBuffer (Buffer.target b) (Buffer.buffer b)] in
  if (Buffer.size b =? byteLength src)%Z then
    (Ok tt, (b, bound ++ [bufferSubData (Buffer.target b) 0 src]))
  else
    (Ok tt,
     ({| Buffer.buffer := Buffer.buffer b; Buffer.target := Buffer.target b;
         Buffer.size := byteLength src |},
      bound ++ [bufferData (Buffer.target b) src
                  (default DYNAMIC_DRAW usage)])).
Proof.
  unfold Buffer.update, bind, get_this, Buffer.bind_, gl_do, set_this.
  cbn -[Z.eqb byteLength].
  destruct (Buffer.size b =? byteLength (Buffer.to_source data))%Z;
    cbn; destruct usage; reflexivity.
Qed.

(** X2. The first [update] of a buffer just constructed always
    reallocates, also with an empty payload: the initial size -1 is the
    byte length of no payload.  Construction and first update make three
    calls, [createBuffer], [bindBuffer] and [bufferData], on the target
    given or else on [ARRAY_BUFFER], with the usage given or else
    [DYNAMIC_DRAW]. *)
Theorem Buffer_new_then_update (d : Driver) (h : History)
    (target usage : option Z) (data : Payload) :
  let answer := on_createBuffer d h in
  let bound := default ARRAY_BUFFER target in
  let src := Buffer.to_source data in
  (let* buffer := construct (Buffer.new target) in
   method_on buffer (Buffer.update data usage)) d (tt, h)
  = (Ok {| Buffer.buffer := answer; Buffer.target := bound;
           Buffer.size := byteLength src |},
     (tt,
      h ++ [ createBuffer answer; bindBuffer bound answer;
             bufferData bound src (default DYNAMIC_DRAW usage) ])).
Proof.
  intros answer bound src.
  assert (Hne : (-1 =? byteLength src)%Z = false).
  { pose proof (byteLength_nonneg src). apply Z.eqb_neq. lia. }
  unfold Buffer.new, method_on, construct, bind, ret, gl_ask.
  cbn [fst snd]. rewrite Buffer_update_run. cbv zeta. cbn [Buffer.size].
  fold src answer. rewrite Hne.
  cbn [fst snd Buffer.target Buffer.buffer].
  rewrite <- !app_assoc. subst bound.
  destruct target, usage; reflexivity.
Qed.

Lemma updates_cons (d : Driver) (data : Payload) (rest : list Payload)
    (usage : option Z) (s : Buffer.t * History) :
  updates (data :: rest) usage d s
  = updates rest usage d (Buffer.update data usage d s).2.
Proof.
  destruct s as [b h]. unfold updates. cbn [for_each]. unfold bind.
  rewrite Buffer_update_run. cbv zeta.
  destruct (Buffer.size b =? _)%Z; reflexivity.
Qed.

(** What one [update] adds to the counts of the two upload calls. *)
Lemma Buffer_update_counts (d : Driver) (data : Payload) (usage : option Z)
    (s : Buffer.t * History) :
  let len := byteLength (Buffer.to_source data) in
  let s' := (Buffer.update data usage d s).2 in
  let fresh := if (Buffer.size s.1 =? len)%Z then 0%nat else 1%nat in
  Buffer.size s'.1 = len
  ∧ Buffer.buffer s'.1 = Buffer.buffer s.1
  ∧ Buffer.target s'.1 = Buffer.target s.1
  ∧ count_calls is_bufferData s'.2
    = (count_calls is_bufferData s.2 + fresh)%nat
  ∧ (count_calls is_bufferSubData s'.2 + fresh
     = count_calls is_bufferSubData s.2 + 1)%nat.
Proof.
  destruct s as [b h]. cbv zeta. rewrite Buffer_update_run. cbv zeta.
  cbn [fst snd].
  destruct (Z.eqb_spec (Buffer.size b) (byteLength (Buffer.to_source data)))
    as [E|E]; cbn [fst snd Buffer.size Buffer.buffer Buffer.target];
    rewrite !count_calls_app; cbn; repeat split; auto; lia.
Qed.

Lemma Buffer_updates_counts (d : Driver) (payloads : list Payload)
    (usage : option Z) (len : Z) (s : Buffer.t * History) :
  payloads ≠ [] →
  (∀ data, data ∈ payloads → byteLength (Buffer.to_source data) = len) →
  let run := updates payloads usage d s in
  let fresh := if (Buffer.size s.1 =? len)%Z then 0%nat else 1%nat in
  run.1 = Ok tt
  ∧ Buffer.size run.2.1 = len
  ∧ Buffer.buffer run.2.1 = Buffer.buffer s.1
  ∧ Buffer.target run.2.1 = Buffer.target s.1
  ∧ count_calls is_bufferData run.2.2
    = (count_calls is_bufferData s.2 + fresh)%nat
  ∧ (count_calls is_bufferSubData run.2.2 + fresh
     = count_calls is_bufferSubData s.2 + length payloads)%nat.
Proof.
  intros Hne Hlen. revert s Hne.
  induction payloads as [|data rest IH]; intros s Hne; [done|].
  assert (Hdata : byteLength (Buffer.to_source data) = len)
    by (apply Hlen; left).
  assert (Hrest : ∀ data', data' ∈ rest
                           → byteLength (Buffer.to_source data') = len)
    by (intros; apply Hlen; by right).
  specialize (IH Hrest).
  cbv zeta. rewrite updates_cons.
  pose proof (Buffer_update_counts d data usage s) as Hone.
  cbv zeta in Hone. rewrite Hdata in Hone.
  destruct Hone as (Hs & Hb & Ht & Hd & Hsub).
  generalize dependent (Buffer.update data usage d s).2. intros s' Hs Hb Ht Hd Hsub.
  destruct rest as [|data' rest'].
  - unfold updates. cbn [for_each length]. unfold ret. cbn [fst snd].
    repeat split; auto.
  - pose proof (IH s' ltac:(done)) as HIH. cbv zeta in HIH.
    rewrite Hs, Z.eqb_refl in HIH.
    generalize dependent (updates (data' :: rest') usage d s').
    intros r (H1 & H2 & H3 & H4 & H5 & H6).
    repeat split; try congruence.
    + lia.
    + cbn [length] in *. lia.
Qed.

(** X3. A run of [update] calls whose payloads all have one byte length
    [len] never fails and leaves [len] as recorded size; it reallocates
    with [bufferData] once, in its first call, when the size recorded
    before differs from [len], and not at all when it is [len]; every
    other call of the run overwrites in place with [bufferSubData]. *)
Theorem Buffer_updates_same_length (d : Driver) (payloads : list Payload)
    (usage : option Z) (len : Z) (b : Buffer.t) (h : History) :
  payloads ≠ [] →
  (∀ data, data ∈ payloads → byteLength (Buffer.to_source data) = len) →
  let run := updates payloads usage d (b, h) in
  let fresh := if (Buffer.size b =? len)%Z then 0%nat else 1%nat in
  run.1 = Ok tt
  ∧ Buffer.size run.2.1 = len
  ∧ Buffer.buffer run.2.1 = Buffer.buffer b
  ∧ Buffer.target run.2.1 = Buffer.target b
  ∧ count_calls is_bufferData run.2.2
    = (count_calls is_bufferData h + fresh)%nat
  ∧ (count_calls is_bufferSubData run.2.2 + fresh
     = count_calls is_bufferSubData h + length payloads)%nat.
Proof.
  intros Hne Hlen.
  exact (Buffer_updates_counts d payloads usage len (b, h) Hne Hlen).
Qed.

Lemma Buffer_updates_same_length_witness :
  let run := updates [ PlainArray [1; 2]; Binary (View Float32 [3; 4]);
                       PlainArray [5; 6] ] None demo_driver
               (fresh_buffer, []) in
  run.1 = Ok tt
  ∧ Buffer.size run.2.1 = 8
  ∧ count_calls is_bufferData run.2.2 = 1%nat
  ∧ count_calls is_bufferSubData run.2.2 = 2%nat.
Proof.
  intros run.
  destruct (Buffer_updates_same_length demo_driver
              [ PlainArray [1; 2]; Binary (View Float32 [3; 4]);
                PlainArray [5; 6] ] None 8 fresh_buffer [])
    as (H1 & H2 & _ & _ & H5 & H6).
  - discriminate.
  - intros data Hin.
    repeat (apply elem_of_cons in Hin as [->|Hin]); try reflexivity.
    by apply elem_of_nil in Hin.
  - split; [exact H1|]. split; [exact H2|]. split; [exact H5|].
    apply (Nat.add_cancel_r _ _ 1). exact H6.
Defined.

(** X4. [Igloo.array] and [Igloo.elements] create a buffer for their
    target; given data they upload it at once with [bufferData], never with
    [bufferSubData], with the usage [STATIC_DRAW] unless one is given, and
    record its byte length; given no data they make no further call and
    the recorded size stays the initial -1. *)
Theorem Igloo_array_elements {T} (d : Driver) (this : T) (h : History)
    (data : Payload) (usage : option Z) :
  let answer := on_createBuffer d h in
  let src := Buffer.to_source data in
  let made target :=
    (Ok {| Buffer.buffer := answer; Buffer.target := target;
           Buffer.size := byteLength src |},
     (this,
      h ++ [ createBuffer answer; bindBuffer target answer;
             bufferData target src (default STATIC_DRAW usage) ])) in
  let empty target :=
    (Ok {| Buffer.buffer := answer; Buffer.target := target;
           Buffer.size := -1 |},
     (this, h ++ [createBuffer answer])) in
  Igloo_array (Some data) usage d (this, h) = made ARRAY_BUFFER
  ∧ Igloo_elements (Some data) usage d (this, h) = made ELEMENT_ARRAY_BUFFER
  ∧ Igloo_array None usage d (this, h) = empty ARRAY_BUFFER
  ∧ Igloo_elements None usage d (this, h) = empty ELEMENT_ARRAY_BUFFER.
Proof.
  intros answer src made empty.
  assert (Hne : (-1 =? byteLength src)%Z = false).
  { pose proof (byteLength_nonneg src). apply Z.eqb_neq. lia. }
  unfold Igloo_array, Igloo_elements, Buffer.new, method_on, construct,
    bind, ret, gl_ask. cbn [fst snd].
  rewrite !Buffer_update_run. cbv zeta. cbn [Buffer.size].
  fold src answer. rewrite Hne. cbn [fst snd Buffer.target Buffer.buffer].
  subst made empty. cbn beta. rewrite <- !app_assoc.
  repeat split; destruct usage; reflexivity.
Qed.

(** ** Program: the table of locations in use *)

(** X5. A uniform whose name reads as [undefined] in the table and which
    the resolver finds is resolved once: over two [uniform] calls with
    that name, whatever their values and whether or not they go on to
    throw, the resolver is asked exactly once, by the first, and the table
    holds the location it answered from then on. *)
Theorem uniform_resolved_once (d : Driver) (p : Program.t) (h : History)
    (name : string) (loc : WebGLUniformLocation)
    (value1 value2 : Value) (i1 i2 : option bool)
    (dim1 dim2 : option JSNumber) :
  vars_get (Program.vars p) name = Absent →
  on_getUniformLocation d h (Program.program p) name = Some loc →
  let s1 := (Program.uniform name value1 i1 dim1 d (p, h)).2 in
  let s2 := (Program.uniform name value2 i2 dim2 d s1).2 in
  location_queries name s1.2 = S (location_queries name h)
  ∧ location_queries name s2.2 = S (location_queries name h)
  ∧ Program.vars s1.1 = <[name := UniformLoc loc]> (Program.vars p)
  ∧ s2.1 = s1.1.
Proof. exact (uniform_memoized d p h name loc value1 value2 i1 i2 dim1 dim2). Qed.

Lemma uniform_resolved_once_witness :
  let s1 := (Program.uniform "tint" (VString "red") None None demo_driver
               (fresh_program, [])).2 in
  let s2 := (Program.uniform "tint" (VArray [1; 0; 0]) None None
               demo_driver s1).2 in
  location_queries "tint" s1.2 = 1%nat
  ∧ location_queries "tint" s2.2 = 1%nat
  ∧ Program.vars s1.1 = <["tint" := UniformLoc 7%N]> ∅
  ∧ s2.1 = s1.1.
Proof.
  exact (uniform_resolved_once demo_driver fresh_program [] "tint" 7%N
           (VString "red") (VArray [1; 0; 0]) None None None None
           eq_refl eq_refl).
Defined.

(** X6. An attribute whose name reads as [undefined] in the table is
    resolved once: over two [attrib] calls with that name the resolver is
    asked exactly once, and whatever number it answered, the index -1 of an
    attribute that does not exist included, is stored and used from then
    on. *)
Theorem attrib_resolved_once (d : Driver) (p : Program.t) (h : History)
    (name : string) (value1 value2 : Buffer.t) (size1 size2 : number)
    (stride1 stride2 : option number) :
  vars_get (Program.vars p) name = Absent →
  let s1 := (Program.attrib name value1 size1 stride1 d (p, h)).2 in
  let s2 := (Program.attrib name value2 size2 stride2 d s1).2 in
  location_queries name s1.2 = S (location_queries name h)
  ∧ location_queries name s2.2 = S (location_queries name h)
  ∧ Program.vars s1.1
    = <[name := AttribLoc
                  (on_getAttribLocation d h (Program.program p) name)]>
        (Program.vars p)
  ∧ s2.1 = s1.1.
Proof.
  exact (attrib_memoized d p h name value1 value2 size1 size2
           stride1 stride2).
Qed.

Lemma attrib_resolved_once_witness :
  let s1 := (Program.attrib "normals" fresh_buffer 3 None demo_driver
               (fresh_program, [])).2 in
  let s2 := (Program.attrib "normals" fresh_buffer 3 (Some 12) demo_driver
               s1).2 in
  location_queries "normals" s1.2 = 1%nat
  ∧ location_queries "normals" s2.2 = 1%nat
  ∧ Program.vars s1.1 = <["normals" := AttribLoc (-1)]> ∅
  ∧ s2.1 = s1.1.
Proof.
  exact (attrib_resolved_once demo_driver fresh_program [] "normals"
           fresh_buffer fresh_buffer 3 3 None (Some 12) eq_refl).
Defined.

(** X7. A uniform the resolver does not find is asked for again by every
    call: two [uniform] calls with that name both throw the lookup error,
    query the resolver twice, and leave the table as it was. *)
Theorem uniform_not_found_twice (d : Driver) (p : Program.t) (h : History)
    (name : string) (value1 value2 : Value) (i1 i2 : option bool)
    (dim1 dim2 : option JSNumber) :
  let query := getUniformLocation (Program.program p) name None in
  vars_get (Program.vars p) name = Absent →
  on_getUniformLocation d h (Program.program p) name = None →
  on_getUniformLocation d (h ++ [query]) (Program.program p) name = None →
  let failure :=
    Throw (Error ("Failed to locate uniform '" +:+ name +:+ "'")) in
  let run1 := Program.uniform name value1 i1 dim1 d (p, h) in
  let run2 := Program.uniform name value2 i2 dim2 d run1.2 in
  run1 = (failure, (p, h ++ [query]))
  ∧ run2 = (failure, (p, h ++ [query; query])).
Proof.
  intros query Habs H1 H2 failure run1 run2.
  assert (E1 : run1 = (failure, (p, h ++ [query])))
    by (apply uniform_not_found; assumption).
  split; [exact E1|].
  subst run2. rewrite E1. cbn [snd].
  rewrite uniform_not_found by assumption.
  rewrite <- app_assoc. reflexivity.
Qed.

Lemma uniform_not_found_twice_witness :
  let failure := Throw (Error "Failed to locate uniform 'fog'") in
  let query := getUniformLocation 0%N "fog" None in
  let run1 := Program.uniform "fog" (VNumber 1) None None demo_driver
                (fresh_program, []) in
  run1 = (failure, (fresh_program, [query]))
  ∧ Program.uniform "fog" (VNumber 1) None None demo_driver run1.2
    = (failure, (fresh_program, [query; query])).
Proof.
  exact (uniform_not_found_twice demo_driver fresh_program [] "fog"
           (VNumber 1) (VNumber 1) None None None None
           eq_refl eq_refl eq_refl).
Defined.

(** X8. Uniforms and attributes share one table.  Once [attrib] has stored
    the index of a name, [uniform] with that name asks the resolver
    nothing and hands that number to the context as the uniform's
    location. *)
Theorem attrib_then_uniform (d : Driver) (p : Program.t) (h : History)
    (name : string) (value : Buffer.t) (size : number)
    (stride : option number) (x : number) :
  vars_get (Program.vars p) name = Absent →
  let index := on_getAttribLocation d h (Program.program p) name in
  let s1 := (Program.attrib name value size stride d (p, h)).2 in
  Program.uniform name (VNumber x) None None d s1
  = (Ok tt, (s1.1, s1.2 ++ [uniform1f (Own (AttribLoc index)) (VNumber x)])).
Proof.
  intros Habs index s1.
  assert (Hvars : Program.vars s1.1
                  = <[name := AttribLoc index]> (Program.vars p)).
  { subst s1. rewrite attrib_split.
    destruct (after_locate (locate_attrib name)
                (bind_attrib name value size stride) d p h
                (bind_attrib_frame _ _ _ _)) as [Hp _].
    rewrite Hp, locate_attrib_run, Habs. reflexivity. }
  destruct s1 as [p1 h1]. cbn [fst snd] in *.
  rewrite uniform_split.
  change ((locate_uniform name ;;; dispatch_uniform name (VNumber x) None None)
            d (p1, h1))
    with (match locate_uniform name d (p1, h1) with
          | (Ok _, s') => dispatch_uniform name (VNumber x) None None d s'
          | (Throw e, s') => (Throw e, s')
          end).
  rewrite locate_uniform_run, Hvars, vars_get_insert.
  rewrite dispatch_uniform_run, Hvars, vars_get_insert. reflexivity.
Qed.

Lemma attrib_then_uniform_witness :
  let s1 := (Program.attrib "points" fresh_buffer 2 None demo_driver
               (fresh_program, [])).2 in
  Program.uniform "points" (VNumber 5) None None demo_driver s1
  = (Ok tt, (s1.1, s1.2 ++ [uniform1f (Own (AttribLoc 0)) (VNumber 5)])).
Proof.
  exact (attrib_then_uniform demo_driver fresh_program [] "points"
           fresh_buffer 2 None 5 eq_refl).
Defined.

(** The first [attrib] for a name asks the resolver once and stores the
    answer. *)
Lemma attrib_first (d : Driver) (p : Program.t) (h : History)
    (name : string) (value : Buffer.t) (size : number)
    (stride : option number) :
  vars_get (Program.vars p) name = Absent →
  let s1 := (Program.attrib name value size stride d (p, h)).2 in
  location_queries name s1.2 = S (location_queries name h)
  ∧ Program.vars s1.1
    = <[name := AttribLoc
                  (on_getAttribLocation d h (Program.program p) name)]>
        (Program.vars p).
Proof.
  intros Habs s1. subst s1. rewrite attrib_split.
  destruct (after_locate (locate_attrib name)
              (bind_attrib name value size stride) d p h
              (bind_attrib_frame _ _ _ _)) as [Hp Hq].
  pose proof (locate_attrib_queries d p h name) as Hl.
  pose proof (locate_attrib_run d p h name) as Hr.
  rewrite Habs in Hl, Hr. simpl in Hl, Hr.
  split; [rewrite Hq, Hl; lia|]. rewrite Hp, Hr. reflexivity.
Qed.

(** X9. [disable] forgets no location: an attribute bound, disabled and
    bound again is resolved once, by the first [attrib]. *)
Theorem disable_keeps_locations (d : Driver) (p : Program.t) (h : History)
    (name : string) (value : Buffer.t) (size : number)
    (stride : option number) :
  vars_get (Program.vars p) name = Absent →
  let s1 := (Program.attrib name value size stride d (p, h)).2 in
  let s2 := (Program.disable d s1).2 in
  let s3 := (Program.attrib name value size stride d s2).2 in
  s2.1 = s1.1 ∧ s3.1 = s1.1
  ∧ location_queries name s3.2 = S (location_queries name h).
Proof.
  intros Habs s1 s2 s3.
  destruct (attrib_first d p h name value size stride Habs) as (Hq1 & Hv1).
  fold s1 in Hq1, Hv1.
  assert (Hs2 : s2 = (s1.1, s1.2 ++ (disableVertexAttribArray
                        <$> attribute_indices
                              (map_to_list (Program.vars s1.1))))).
  { subst s2. destruct s1 as [p1 h1]. cbn [fst snd].
    unfold Program.disable, bind, get_this. cbn [fst snd].
    unfold for_in_keys. rewrite disable_loop; [reflexivity|].
    intros n l Hin. by apply elem_of_map_to_list. }
  assert (Hq2 : location_queries name s2.2 = location_queries name s1.2).
  { rewrite Hs2. cbn [snd]. unfold location_queries.
    rewrite count_calls_app.
    generalize (attribute_indices (map_to_list (Program.vars s1.1))).
    intros l. induction l as [|x l IH]; cbn in *; lia. }
  assert (Hp2 : s2.1 = s1.1) by (rewrite Hs2; reflexivity).
  split; [exact Hp2|].
  subst s3. rewrite attrib_split.
  destruct s2 as [p2 h2]. cbn [fst snd] in *.
  destruct (after_locate (locate_attrib name)
              (bind_attrib name value size stride) d p2 h2
              (bind_attrib_frame _ _ _ _)) as [Hp3 Hq3].
  pose proof (locate_attrib_queries d p2 h2 name) as Hl.
  pose proof (locate_attrib_run d p2 h2 name) as Hr.
  assert (Hv2 : Program.vars p2
                = <[name := AttribLoc
                              (on_getAttribLocation d h (Program.program p)
                                 name)]> (Program.vars p))
    by (rewrite Hp2; exact Hv1).
  rewrite Hv2, vars_get_insert in Hl, Hr. simpl in Hl, Hr.
  rewrite Hr in Hp3. simpl in Hp3.
  split; [congruence|]. rewrite Hq3, Hl. lia.
Qed.

Lemma disable_keeps_locations_witness :
  let s1 := (Program.attrib "points" fresh_buffer 2 None demo_driver
               (fresh_program, [])).2 in
  let s2 := (Program.disable demo_driver s1).2 in
  let s3 := (Program.attrib "points" fresh_buffer 2 None demo_driver s2).2 in
  s2.1 = s1.1 ∧ s3.1 = s1.1 ∧ location_queries "points" s3.2 = 1%nat.
Proof.
  exact (disable_keeps_locations demo_driver fresh_program [] "points"
           fresh_buffer 2 None eq_refl).
Defined.

(** ** Program: outcomes of construction *)

(** X10. A construction that returns a program has made exactly the
    thirteen calls of a complete build, in this order: the vertex shader is
    created, compiled, found compiled and attached before the fragment
    shader is created; the link comes last and its status was read as
    true.  The program returned wraps the handle created first and its
    table of locations is empty. *)
Theorem Program_new_ok (d : Driver) (h : History) (vertex fragment : string)
    (prog : Program.t) :
  let run := Program.new vertex fragment d (tt, h) in
  run.1 = Ok prog →
  Program.vars prog = ∅
  ∧ ∃ vs fs,
      run.2.2
      = h ++ [ createProgram (Some (Program.program prog));
               createShader VERTEX_SHADER (Some vs);
               shaderSource vs vertex; compileShader vs;
               getShaderParameter vs COMPILE_STATUS true;
               attachShader (Program.program prog) vs;
               createShader FRAGMENT_SHADER (Some fs);
               shaderSource fs fragment; compileShader fs;
               getShaderParameter fs COMPILE_STATUS true;
               attachShader (Program.program prog) fs;
               linkProgram (Program.program prog);
               getProgramParameter (Program.program prog) LINK_STATUS
                 true ].
Proof.
  intros run. subst run.
  unfold Program.new, bind, gl_ask, gl_do, throw, ret. cbn [fst snd].
  destruct (on_createProgram d h) as [p|]; [|discriminate].
  rewrite makeShader_run. cbv zeta.
  destruct (on_createShader d _ VERTEX_SHADER) as [vs|]; [|discriminate].
  destruct (on_getShaderParameter d _ vs COMPILE_STATUS); [|discriminate].
  cbn [fst snd]. rewrite makeShader_run. cbv zeta.
  destruct (on_createShader d _ FRAGMENT_SHADER) as [fs|]; [|discriminate].
  destruct (on_getShaderParameter d _ fs COMPILE_STATUS); [|discriminate].
  cbn [fst snd].
  destruct (on_getProgramParameter d _ p LINK_STATUS); cbn [negb fst snd];
    [|discriminate].
  intros [= <-]. split; [reflexivity|].
  exists vs, fs. cbn [Program.program]. rewrite <- !app_assoc. reflexivity.
Qed.

Lemma Program_new_ok_witness :
  let run := Program.new "void main(){}" "void main(){gl_FragColor;}"
               demo_driver (tt, []) in
  run.1 = Ok fresh_program
  ∧ Program.vars fresh_program = ∅
  ∧ ∃ vs fs,
      run.2.2
      = [ createProgram (Some 0%N);
          createShader VERTEX_SHADER (Some vs);
          shaderSource vs "void main(){}"; compileShader vs;
          getShaderParameter vs COMPILE_STATUS true;
          attachShader 0%N vs;
          createShader FRAGMENT_SHADER (Some fs);
          shaderSource fs "void main(){gl_FragColor;}"; compileShader fs;
          getShaderParameter fs COMPILE_STATUS true;
          attachShader 0%N fs;
          linkProgram 0%N;
          getProgramParameter 0%N LINK_STATUS true ].
Proof.
  intros run. split; [reflexivity|].
  exact (Program_new_ok demo_driver [] "void main(){}"
           "void main(){gl_FragColor;}" fresh_program eq_refl).
Defined.

(** X11. A construction that throws throws an [Error], and its message
    tells where it stopped: at the creation of the program, which was then
    the only call; at the creation of a shader, with nothing given to
    compile after it; at a compile status read as false; or at the link
    status read as false. *)
Theorem Program_new_throws (d : Driver) (h : History)
    (vertex fragment : string) (e : Exn) :
  let run := Program.new vertex fragment d (tt, h) in
  run.1 = Throw e →
  ∃ calls,
    run.2.2 = h ++ calls
    ∧ ((e = Error "Failed to create program"
        ∧ calls = [createProgram None])
       ∨ (e = Error "Failed to create shader"
          ∧ ∃ type, last calls = Some (createShader type None))
       ∨ (∃ sh log,
            e = Error (or_default log "Failed to compile shader")
            ∧ last calls = Some (getShaderInfoLog sh log)
            ∧ getShaderParameter sh COMPILE_STATUS false ∈ calls)
       ∨ (∃ p log,
            e = Error (or_default log "Failed to link program")
            ∧ last calls = Some (getProgramInfoLog p log)
            ∧ getProgramParameter p LINK_STATUS false ∈ calls)).
Proof.
  intros run. subst run.
  unfold Program.new, bind, gl_ask, gl_do, throw, ret. cbn [fst snd].
  destruct (on_createProgram d h) as [p|].
  2:{ intros [= <-]. eexists. split; [reflexivity|]. left. done. }
  rewrite makeShader_run. cbv zeta.
  destruct (on_createShader d _ VERTEX_SHADER) as [vs|].
  2:{ intros [= <-]. eexists. split; [rewrite <- !app_assoc; reflexivity|].
      right. left. split; [done|]. by eexists. }
  destruct (on_getShaderParameter d _ vs COMPILE_STATUS).
  2:{ generalize (on_getShaderInfoLog d
                    (((h ++ [createProgram (Some p)])
                      ++ [ createShader VERTEX_SHADER (Some vs);
                           shaderSource vs vertex; compileShader vs ])
                     ++ [getShaderParameter vs COMPILE_STATUS false]) vs).
      intros log [= <-].
      eexists. split; [rewrite <- !app_assoc; reflexivity|].
      right. right. left. exists vs, log.
      split; [done|]. split; [done|]. cbn. repeat constructor. }
  cbn [fst snd]. rewrite makeShader_run. cbv zeta.
  destruct (on_createShader d _ FRAGMENT_SHADER) as [fs|].
  2:{ intros [= <-]. eexists. split; [rewrite <- !app_assoc; reflexivity|].
      right. left. split; [done|]. by eexists. }
  destruct (on_getShaderParameter d _ fs COMPILE_STATUS).
  2:{ match goal with
      | |- context [on_getShaderInfoLog d ?a fs] =>
          generalize (on_getShaderInfoLog d a fs)
      end.
      intros log [= <-].
      eexists. split; [rewrite <- !app_assoc; reflexivity|].
      right. right. left. exists fs, log.
      split; [done|]. split; [done|]. cbn. repeat constructor. }
  cbn [fst snd].
  destruct (on_getProgramParameter d _ p LINK_STATUS); cbn [negb fst snd];
    [discriminate|].
  match goal with
  | |- context [on_getProgramInfoLog d ?a p] =>
      generalize (on_getProgramInfoLog d a p)
  end.
  intros log [= <-].
  eexists. split; [rewrite <- !app_assoc; reflexivity|].
  right. right. right. exists p, log.
  split; [done|]. split; [done|]. cbn. repeat constructor.
Qed.

Lemma Program_new_throws_witness :
  let run := Program.new "void main(){}" "void main(){}" lost_driver
               (tt, []) in
  run.1 = Throw (Error "Failed to create program")
  ∧ ∃ calls,
      run.2.2 = [] ++ calls
      ∧ ((Error "Failed to create program" = Error "Failed to create program"
          ∧ calls = [createProgram None])
         ∨ (Error "Failed to create program" = Error "Failed to create shader"
            ∧ ∃ type, last calls = Some (createShader type None))
         ∨ (∃ sh log,
              Error "Failed to create program"
              = Error (or_default log "Failed to compile shader")
              ∧ last calls = Some (getShaderInfoLog sh log)
              ∧ getShaderParameter sh COMPILE_STATUS false ∈ calls)
         ∨ (∃ p log,
              Error "Failed to create program"
              = Error (or_default log "Failed to link program")
              ∧ last calls = Some (getProgramInfoLog p log)
              ∧ getProgramParameter p LINK_STATUS false ∈ calls)).
Proof.
  intros run. split; [reflexivity|].
  exact (Program_new_throws lost_driver [] "void main(){}" "void main(){}"
           (Error "Failed to create program") eq_refl).
Defined.

(** ** Framebuffers: attachments and the facade *)

(** An attachment to a later color slot does not bind the framebuffer; one
    to the first slot, named or by default, binds it first. *)
Lemma Framebuffer_attach_run (d : Driver) (fb : Framebuffer.t) (h : History)
    (texture : Texture) (i : option number) :
  let slot := default 0 i in
  let attachment :=
    framebufferTexture2D FRAMEBUFFER (COLOR_ATTACHMENT0 + slot) TEXTURE_2D
      (texture_handle texture) 0 in
  Framebuffer.attach texture i d (fb, h) =
  (Ok tt,
   (fb,
    if (slot =? 0)%Z
    then h ++ [ bindFramebuffer FRAMEBUFFER (Framebuffer.framebuffer fb);
                attachment ]
    else h ++ [attachment])).
Proof.
  intros slot attachment. unfold Framebuffer.attach, Framebuffer.bind_.
  fold slot. run_M. destruct (slot =? 0)%Z; simpl;
    rewrite <- ?app_assoc; reflexivity.
Qed.

(** X12. [Igloo.framebuffer] always asks the context for a fresh
    framebuffer and wraps the answer, be it [null].  Given a texture, it
    then binds that framebuffer and attaches the texture to the first
    color slot; given none, it makes no further call.  The facade itself
    is left as it was. *)
Theorem Igloo_framebuffer_run (d : Driver) (this : Igloo.t) (h : History)
    (texture : Texture) :
  let answer := on_createFramebuffer d h in
  let made := {| Framebuffer.framebuffer := answer;
                 Framebuffer.renderbuffer := None |} in
  Igloo.framebuffer (Some texture) d (this, h)
  = (Ok made,
     (this,
      h ++ [ createFramebuffer answer;
             bindFramebuffer FRAMEBUFFER answer;
             framebufferTexture2D FRAMEBUFFER COLOR_ATTACHMENT0 TEXTURE_2D
               (texture_handle texture) 0 ]))
  ∧ Igloo.framebuffer None d (this, h)
    = (Ok made, (this, h ++ [createFramebuffer answer])).
Proof.
  intros answer made.
  unfold Igloo.framebuffer, Framebuffer.attach, Framebuffer.bind_,
    Framebuffer.new. run_M.
  rewrite <- !app_assoc. split; reflexivity.
Qed.

(** X13. No construction of the facade creates a framebuffer.  Given a
    context, the constructor makes no call at all, ignores the options and
    cannot fail: it returns a facade on that context.  Given a canvas or a
    context, and whether it returns or throws, it never calls
    [createFramebuffer]; and a facade it returns holds a default
    framebuffer that wraps [null] and has no depth renderbuffer. *)
Theorem Igloo_new_default_framebuffer (d : Driver) (h : History)
    (options : option (gmap string Value)) :
  (∀ ctx : Context,
     Igloo.new (inr ctx) options d (tt, h)
     = (Ok {| Igloo.gl := Igloo.OfContext ctx;
              Igloo.canvas := canvas_of d ctx;
              Igloo.defaultFramebuffer :=
                {| Framebuffer.framebuffer := None;
                   Framebuffer.renderbuffer := None |} |},
        (tt, h)))
  ∧ ∀ gl : Canvas + Context,
      let run := Igloo.new gl options d (tt, h) in
      count_calls is_createFramebuffer run.2.2
      = count_calls is_createFramebuffer h
      ∧ ∀ igloo, run.1 = Ok igloo →
          Igloo.defaultFramebuffer igloo
          = {| Framebuffer.framebuffer := None;
               Framebuffer.renderbuffer := None |}.
Proof.
  split; [reflexivity|].
  intros [element|ctx] run; subst run.
  - rewrite Igloo_new_run.
    destruct (context_of_reply _) as [c|]; cbn [fst snd];
      (split; [rewrite count_calls_app; cbn; lia|]).
    + by intros igloo [= <-].
    + intros igloo [=].
  - split; [reflexivity|]. by intros igloo [= <-].
Qed.

Lemma Igloo_new_default_framebuffer_witness :
  let made := {| Igloo.gl := Igloo.OfContext 3%N; Igloo.canvas := 3%N;
                 Igloo.defaultFramebuffer :=
                   {| Framebuffer.framebuffer := None;
                      Framebuffer.renderbuffer := None |} |} in
  Igloo.new (inr 3%N) (Some no_error_options) lost_driver (tt, [])
  = (Ok made, (tt, []))
  ∧ count_calls is_createFramebuffer
      (Igloo.new (inl 5%N) None headless_driver (tt, [])).2.2 = 0%nat
  ∧ Igloo.defaultFramebuffer made
    = {| Framebuffer.framebuffer := None; Framebuffer.renderbuffer := None |}.
Proof.
  intros made.
  destruct (Igloo_new_default_framebuffer lost_driver []
              (Some no_error_options)) as [Hctx Hany].
  destruct (Igloo_new_default_framebuffer headless_driver [] None)
    as [_ Hcanvas].
  split; [exact (Hctx 3%N)|].
  split; [exact (proj1 (Hcanvas (inl 5%N)))|].
  exact (proj2 (Hany (inr 3%N)) made eq_refl).
Defined.

(** X14. When the context fails to create the renderbuffer and answers
    [null], [attachDepth] goes on regardless: it allocates storage and
    attaches [null], and the wrapper is left without a renderbuffer, so
    that the next call asks for one again. *)
Theorem attachDepth_retries_after_null (d : Driver) (fb : Framebuffer.t)
    (h : History) (width height width' height' : number) :
  let bound := bindFramebuffer FRAMEBUFFER (Framebuffer.framebuffer fb) in
  Framebuffer.renderbuffer fb = None →
  on_createRenderbuffer d (h ++ [bound]) = None →
  let first :=
    h ++ [ bound; createRenderbuffer None;
           renderbufferStorage RENDERBUFFER DEPTH_COMPONENT16 width height;
           framebufferRenderbuffer FRAMEBUFFER DEPTH_ATTACHMENT RENDERBUFFER
             None ] in
  let again := on_createRenderbuffer d (first ++ [bound]) in
  Framebuffer.attachDepth width height d (fb, h) = (Ok tt, (fb, first))
  ∧ Framebuffer.attachDepth width' height' d (fb, first)
    = (Ok tt,
       ({| Framebuffer.framebuffer := Framebuffer.framebuffer fb;
           Framebuffer.renderbuffer := again |},
        first ++ [ bound; createRenderbuffer again;
                   renderbufferStorage RENDERBUFFER DEPTH_COMPONENT16
                     width' height';
                   framebufferRenderbuffer FRAMEBUFFER DEPTH_ATTACHMENT
                     RENDERBUFFER again ])).
Proof.
  intros bound Hnone Hnull first again.
  split.
  - rewrite attachDepth_first by exact Hnone. cbv zeta. fold bound.
    rewrite Hnull. destruct fb as [f r]. cbn in Hnone. subst r.
    reflexivity.
  - rewrite attachDepth_first by exact Hnone. reflexivity.
Qed.

Lemma attachDepth_retries_after_null_witness :
  let first :=
    [ bindFramebuffer FRAMEBUFFER (Some 0%N); createRenderbuffer None;
      renderbufferStorage RENDERBUFFER DEPTH_COMPONENT16 64 64;
      framebufferRenderbuffer FRAMEBUFFER DEPTH_ATTACHMENT RENDERBUFFER
        None ] in
  Framebuffer.attachDepth 64 64 lost_driver (plain_framebuffer, [])
  = (Ok tt, (plain_framebuffer, first))
  ∧ (Framebuffer.attachDepth 64 64 lost_driver (plain_framebuffer, first)).2.2
    = first ++ first.
Proof.
  intros first.
  destruct (attachDepth_retries_after_null lost_driver plain_framebuffer []
              64 64 64 64 eq_refl eq_refl) as [H1 H2].
  split; [exact H1|]. exact (f_equal (λ r, r.2.2) H2).
Defined.

(** ** Shader sources given by URL *)



(** X16. When both sources contain white space, [Igloo.program] fetches
    nothing: whatever [fetch] would do, the program is constructed from
    the two sources as given, each passed through the transform when there
    is one. *)
Theorem Igloo_program_inline {T} (fetch : string → Result string)
    (vertex fragment : string) (transform : option (string → string))
    (d : Driver) (this : T) (h : History) :
  has_white_space vertex = true →
  has_white_space fragment = true →
  let through s := match transform with Some f => f s | None => s end in
  Igloo_program fetch vertex fragment transform d (this, h)
  = construct (Program.new (through vertex) (through fragment)) d (this, h).
Proof.
  intros Hv Hf through. unfold Igloo_program, looksLikeURL.
  rewrite Hv, Hf. cbn [negb]. unfold bind, ret. cbn [fst snd].
  subst through. destruct transform; reflexivity.
Qed.

Lemma Igloo_program_inline_witness :
  Igloo_program (λ _, Throw TypeError) "void main(){}" "void main(){}" None
    demo_driver (tt, [])
  = construct (Program.new "void main(){}" "void main(){}") demo_driver
      (tt, []).
Proof.
  exact (Igloo_program_inline (λ _, Throw TypeError) "void main(){}"
           "void main(){}" None demo_driver tt [] eq_refl eq_refl).
Defined.



(** ** Textures *)

Ltac run_R :=
  unfold r_bind, r_ret, r_throw, r_this, r_ask, r_do, r_construct,
    r_method_on; simpl.

Lemma Texture_bind_run (d : RenderDriver) (this : Texture.t)
    (h : list RenderCall) (texunit : option number) :
  Texture.bind_ texunit d (this, h) =
  (Ok tt,
   (this,
    match texunit with
    | Some u => h ++ [ activeTexture (TEXTURE0 + u);
                       bindTexture TEXTURE_2D (Texture.texture this) ]
    | None => h ++ [bindTexture TEXTURE_2D (Texture.texture this)]
    end)).
Proof.
  unfold Texture.bind_. destruct texunit; run_R;
    rewrite <- ?app_assoc; reflexivity.
Qed.

(** The calls of [set] and of [subset]. *)
Lemma Texture_upload_run (d : RenderDriver) (this : Texture.t)
    (h : list RenderCall) (source : option TexSource)
    (xoff yoff : number) (width height : option number) :
  let bound := h ++ [bindTexture TEXTURE_2D (Texture.texture this)] in
  let pixels := Texture.to_pixels this source in
  Texture.set source width height d (this, h)
  = (Ok tt,
     (this,
      bound ++
      [ match width, height with
        | Some w, Some h' =>
            texImage2D TEXTURE_2D 0 (Texture.internalFormat this) w h' 0
              (Texture.format this) (Texture.type this) pixels
        | _, _ =>
            texImage2D_source TEXTURE_2D 0 (Texture.internalFormat this)
              (Texture.format this) (Texture.type this) pixels
        end ]))
  ∧ Texture.subset source xoff yoff width height d (this, h)
    = (Ok tt,
       (this,
        bound ++
        [ match width, height with
          | Some w, Some h' =>
              texSubImage2D TEXTURE_2D 0 xoff yoff w h'
                (Texture.format this) (Texture.type this) pixels
          | _, _ =>
              texSubImage2D_source TEXTURE_2D 0 xoff yoff
                (Texture.format this) (Texture.type this) pixels
          end ])).
Proof.
  intros bound pixels. unfold Texture.set, Texture.subset.
  unfold r_bind at 1 3. rewrite !Texture_bind_run.
  unfold r_bind, r_this, r_do. cbn [fst snd]. fold pixels bound.
  destruct width, height; split; reflexivity.
Qed.

(** X18. [set] and [subset] bind the texture, without selecting a texture
    unit, and make one upload: the sized one when both width and height
    are given, and otherwise, also when just one of the two is given, the
    one that takes its size from the source. *)
Theorem Texture_set_run (d : RenderDriver) (this : Texture.t)
    (h : list RenderCall) (source : option TexSource)
    (xoff yoff : number) (width height : option number) :
  let bound := h ++ [bindTexture TEXTURE_2D (Texture.texture this)] in
  let pixels := Texture.to_pixels this source in
  Texture.set source width height d (this, h)
  = (Ok tt,
     (this,
      bound ++
      [ match width, height with
        | Some w, Some h' =>
            texImage2D TEXTURE_2D 0 (Texture.internalFormat this) w h' 0
              (Texture.format this) (Texture.type this) pixels
        | _, _ =>
            texImage2D_source TEXTURE_2D 0 (Texture.internalFormat this)
              (Texture.format this) (Texture.type this) pixels
        end ]))
  ∧ Texture.subset source xoff yoff width height d (this, h)
    = (Ok tt,
       (this,
        bound ++
        [ match width, height with
          | Some w, Some h' =>
              texSubImage2D TEXTURE_2D 0 xoff yoff w h'
                (Texture.format this) (Texture.type this) pixels
          | _, _ =>
              texSubImage2D_source TEXTURE_2D 0 xoff yoff
                (Texture.format this) (Texture.type this) pixels
          end ])).
Proof. exact (Texture_upload_run d this h source xoff yoff width height). Qed.

(** X19. What [set] and [subset] upload is decided by the source and the
    texture's type alone.  A plain array is replaced by a typed array made
    from its elements: a [Float32Array] on a texture of type [FLOAT], and
    a [Uint8Array] on a texture of any other type.  Pixels that are no
    plain array are uploaded as they are given. *)
Theorem Texture_set_array (d : RenderDriver) (this : Texture.t)
    (h : list RenderCall) (xs : list number) (pixels : Pixels)
    (xoff yoff : number) (width height : option number) :
  let float := (Texture.type this =? FLOAT)%Z in
  let data := View (if float then Float32 else Uint8) xs in
  let set source := Texture.set source width height d (this, h) in
  let subset source :=
    Texture.subset source xoff yoff width height d (this, h) in
  uploaded (set (Some (ArraySource xs))).2.2 = Some (PixelData data)
  ∧ uploaded (subset (Some (ArraySource xs))).2.2 = Some (PixelData data)
  ∧ uploaded (set (Some (PixelSource pixels))).2.2 = Some pixels
  ∧ uploaded (subset (Some (PixelSource pixels))).2.2 = Some pixels.
Proof.
  intros float data set subset. subst set subset. cbv beta.
  destruct (Texture_upload_run d this h (Some (ArraySource xs)) xoff yoff
              width height) as [Hset Hsub].
  destruct (Texture_upload_run d this h (Some (PixelSource pixels)) xoff
              yoff width height) as [Hset' Hsub'].
  rewrite Hset, Hsub, Hset', Hsub'. cbn [fst snd]. unfold uploaded.
  rewrite !last_snoc. subst data float.
  unfold Texture.to_pixels, Float32Array_from, Uint8Array_from.
  destruct (Texture.type this =? FLOAT)%Z;
    destruct width, height; repeat split.
Qed.



(** X21. [Igloo.texture] constructs the texture with six calls: creation,
    binding, one wrap mode for both axes and one filter for both
    directions, [CLAMP_TO_EDGE] and [LINEAR] unless given.  Without a
    source that is all.  With a source it goes on as [set] does: with the
    width and height of the options when their type is
    ["ArrayBufferView"], and without either in every other case. *)
Theorem Igloo_texture_run {T} (d : RenderDriver) (this : T)
    (h : list RenderCall) (source : option TexSource)
    (format wrap filter type internalFormat : option Z)
    (options : option TextureOptions) :
  let handle := on_createTexture d h in
  let made :=
    {| Texture.texture := handle;
       Texture.format := default RGBA format;
       Texture.internalFormat := default RGBA internalFormat;
       Texture.type := default UNSIGNED_BYTE type |} in
  let constructed :=
    h ++ [ createTexture handle; bindTexture TEXTURE_2D handle;
           texParameteri TEXTURE_2D TEXTURE_WRAP_S
             (default CLAMP_TO_EDGE wrap);
           texParameteri TEXTURE_2D TEXTURE_WRAP_T
             (default CLAMP_TO_EDGE wrap);
           texParameteri TEXTURE_2D TEXTURE_MIN_FILTER
             (default LINEAR filter);
           texParameteri TEXTURE_2D TEXTURE_MAG_FILTER
             (default LINEAR filter) ] in
  let sized :=
    match options with
    | Some o => String.eqb (options_type o) "ArrayBufferView"
    | None => false
    end in
  let width := if sized then options ≫= options_width else None in
  let height := if sized then options ≫= options_height else None in
  Igloo_texture source format wrap filter type internalFormat options d
    (this, h)
  = (Ok made,
     (this,
      match source with
      | Some _ => (Texture.set source width height d (made, constructed)).2.2
      | None => constructed
      end)).
Proof.
  intros handle made constructed sized width height.
  assert (Hnew : Texture.new format wrap filter type internalFormat d (tt, h)
                 = (Ok made, (tt, constructed))).
  { unfold Texture.new. run_R. rewrite <- !app_assoc.
    destruct format, wrap, filter, type, internalFormat; reflexivity. }
  unfold Igloo_texture, r_construct. unfold r_bind at 1. cbn [snd].
  rewrite Hnew. cbn [fst snd].
  destruct source as [src|]; [|reflexivity].
  subst width height sized.
  destruct options as [o|]; cbn [mbind option_bind];
    [destruct (String.eqb (options_type o) "ArrayBufferView")|];
    unfold r_method_on; cbn [snd];
    match goal with
    | |- context [Texture.set ?s ?w ?h' d (made, constructed)] =>
        destruct (Texture_upload_run d made constructed s 0 0 w h') as [-> _]
    end; reflexivity.
Qed.

(** ** Program.draw *)

(** X22. [draw] issues the draw call first, [drawArrays] from vertex zero
    without an index type and [drawElements] from offset zero with one
    (also with the type 0), and only then reads the error flag: it throws
    the rendering error exactly when the flag read is not [NO_ERROR], with
    the draw call already made. *)
Theorem Program_draw_run {T} (d : RenderDriver) (this : T)
    (h : list RenderCall) (mode : Z) (count : number) (type : option Z) :
  let call :=
    match type with
    | None => drawArrays mode 0 count
    | Some t => drawElements mode count t 0
    end in
  let error := on_getError d (h ++ [call]) in
  Program_draw mode count type d (this, h)
  = (if (error =? NO_ERROR)%Z then Ok tt
     else Throw (Error "WebGL rendering error"),
     (this, h ++ [call; getError error])).
Proof.
  intros call error. unfold Program_draw.
  destruct type; run_R; fold call; fold error;
    destruct (error =? NO_ERROR)%Z; simpl; rewrite <- app_assoc; reflexivity.
Qed.
